(** * The categorization pipeline of cashew_importer

    A shallow embedding of [src/categorizers/keyword.py],
    [src/categorizers/openai.py], [src/categorizers/main.py] and of the
    description cleaning of [src/transaction_processor.py], with the
    properties of the pipeline stated and proved over it.

    Conventions of the embedding.
    - A Python [str] is a [string] whose characters are the code points
      0..255; [str.lower], [str.isspace], [\d] and [\s] are given on that
      range as CPython has them.
    - A Python [dict] from [str] to [str] is a [gmap string string]; a
      Python [set] of [str] is a [gset string], iterated in an order the
      program does not control ([set_order]).
    - Python exceptions, the list objects shared by reference, the
      requests sent to the classification service and the log are explicit:
      a computation is a function from a [world] to a [world] and either a
      value or the exception raised. *)

From Stdlib Require Import Ascii NArith.
From stdpp Require Import gmap strings list fin_maps.

(** ** Text *)

Module Text.

Definition code (c : ascii) : N := N_of_ascii c.

Definition between (lo hi : N) (c : ascii) : bool :=
  ((lo <=? code c) && (code c <=? hi))%N.

(** [\d] on a [str] pattern: the decimal digits. *)
Definition isdigit (c : ascii) : bool := between 48 57 c.

(** [str.isspace] and [\s]: tab, LF, VT, FF, CR, the separators
    0x1c..0x1f, space, NEL and the no-break space. *)
Definition isspace (c : ascii) : bool :=
  between 9 13 c || between 28 32 c
  || (code c =? 133)%N || (code c =? 160)%N.

(** [[A-Z]], without [re.IGNORECASE]. *)
Definition isupper_az (c : ascii) : bool := between 65 90 c.

(** [str.lower] on one character: A-Z and the capital letters of
    0xc0..0xde (the multiplication sign 0xd7 apart) move up by 32. *)
Definition lower_char (c : ascii) : ascii :=
  if between 65 90 c || (between 192 222 c && negb (code c =? 215)%N)
  then ascii_of_N (code c + 32)
  else c.

Fixpoint lower (s : string) : string :=
  match s with
  | EmptyString => EmptyString
  | String c s' => String (lower_char c) (lower s')
  end.

(** [k in s] on two strings: [k] occurs in [s] as a substring. *)
Fixpoint contains (s k : string) : bool :=
  if String.prefix k s then true
  else match s with
       | EmptyString => false
       | String _ s' => contains s' k
       end.

Fixpoint lstrip (s : string) : string :=
  match s with
  | EmptyString => EmptyString
  | String c s' => if isspace c then lstrip s' else s
  end.

Fixpoint rstrip (s : string) : string :=
  match s with
  | EmptyString => EmptyString
  | String c s' =>
      match rstrip s' with
      | EmptyString => if isspace c then EmptyString else String c EmptyString
      | r => String c r
      end
  end.

(** [str.strip()] without argument. *)
Definition strip (s : string) : string := rstrip (lstrip s).

End Text.

(** ** Regular expressions

    The fragment of Python's [re] the cleaning patterns are written in: a
    pattern is a sequence of elements, each one character of a class, a
    greedy [+] of a class, a counted repetition [{n}] of a class, or the
    anchor [^]. *)

Module Re.
Import Text.

Inductive cset :=
| Chr (c : ascii)   (* a literal character, escaped or not *)
| Digit             (* \d *)
| Space             (* \s *)
| Upper.            (* [A-Z] *)

Definition mem (cs : cset) (a : ascii) : bool :=
  match cs with
  | Chr c => bool_decide (a = c)
  | Digit => isdigit a
  | Space => isspace a
  | Upper => isupper_az a
  end.

Inductive elem :=
| One (cs : cset)
| Many1 (cs : cset)          (* cs+ *)
| Rep (n : nat) (cs : cset)  (* cs{n} *)
| Bol.                       (* ^ *)

Definition pattern := list elem.

Fixpoint lit (s : string) : pattern :=
  match s with
  | EmptyString => []
  | String c s' => One (Chr c) :: lit s'
  end.

(** [cs+] followed by the continuation [k]: the longer match is tried
    first, the shorter one when the rest of the pattern fails after the
    longer one. The result is the number of characters consumed. *)
Fixpoint many1 (cs : cset) (k : string → option nat) (s : string) : option nat :=
  match s with
  | EmptyString => None
  | String a s' =>
      if mem cs a then
        match many1 cs k s' with
        | Some n => Some (S n)
        | None => S <$> k s'
        end
      else None
  end.

Fixpoint rep (n : nat) (cs : cset) (k : string → option nat) (s : string) : option nat :=
  match n with
  | 0 => k s
  | S n' =>
      match s with
      | EmptyString => None
      | String a s' => if mem cs a then S <$> rep n' cs k s' else None
      end
  end.

(** The match of [p] that starts at the head of [s]; [bol] tells whether
    the head of [s] is the start of the whole subject, the only place
    where [^] matches without [re.MULTILINE]. *)
Fixpoint match_here (p : pattern) (bol : bool) (s : string) : option nat :=
  match p with
  | [] => Some 0
  | One cs :: p' =>
      match s with
      | EmptyString => None
      | String a s' => if mem cs a then S <$> match_here p' false s' else None
      end
  | Many1 cs :: p' => many1 cs (match_here p' false) s
  | Rep n cs :: p' =>
      rep n cs (match_here p' (match n with 0 => bol | _ => false end)) s
  | Bol :: p' => if bol then match_here p' bol s else None
  end.

(** [re.sub(p, repl, s)]: the subject is scanned from the left, a match
    is replaced and the scan resumes behind it. [skip] counts the
    characters of the current match that are still to be dropped. *)
Fixpoint sub_from (p : pattern) (repl : string) (bol : bool) (skip : nat)
    (s : string) : string :=
  match s with
  | EmptyString =>
      match skip, match_here p bol EmptyString with
      | 0, Some _ => repl
      | _, _ => EmptyString
      end
  | String a s' =>
      match skip with
      | S k => sub_from p repl false k s'
      | 0 =>
          match match_here p bol s with
          | Some (S n) => repl +:+ sub_from p repl false n s'
          | Some 0 => repl +:+ String a (sub_from p repl false 0 s')
          | None => String a (sub_from p repl false 0 s')
          end
      end
  end.

Definition sub (p : pattern) (repl : string) (s : string) : string :=
  sub_from p repl true 0 s.

(** [re.search(p, s) is not None], from the position [s] starts at. *)
Fixpoint search (p : pattern) (bol : bool) (s : string) : bool :=
  match s with
  | EmptyString => bool_decide (is_Some (match_here p bol EmptyString))
  | String _ s' =>
      bool_decide (is_Some (match_here p bol s)) || search p false s'
  end.

End Re.

(** ** The description normalizer ([TransactionProcessor.clean_descriptions]) *)

Module TransactionProcessor.
Import Text Re.

(** The six removal patterns, in the order of the source. *)
Definition patterns : list pattern :=
  [ (* \d{2}\.\d{2}\.\d{4} \d{2}:\d{2} *)
    [Rep 2 Digit; One (Chr "."); Rep 2 Digit; One (Chr "."); Rep 4 Digit;
     One (Chr " "); Rep 2 Digit; One (Chr ":"); Rep 2 Digit];
    (* Karte: \d+\*+\d+ *)
    lit "Karte: " ++ [Many1 Digit; Many1 (Chr "*"); Many1 Digit];
    (* Betrag: [A-Z]{3} \d+\.\d+ *)
    lit "Betrag: " ++ [Rep 3 Upper; One (Chr " "); Many1 Digit; One (Chr "."); Many1 Digit];
    (* ^Einkauf\s+ *)
    Bol :: lit "Einkauf" ++ [Many1 Space];
    (* \d+\/PP\.\d+\.PP\/\. *)
    Many1 Digit :: lit "/PP." ++ Many1 Digit :: lit ".PP/.";
    (* Ihr Einkauf bei *)
    lit "Ihr Einkauf bei" ].

(** [\s+], replaced by one space. *)
Definition whitespace : pattern := [Many1 Space].

Definition remove_patterns (s : string) : string :=
  foldl (λ d p, sub p "" d) s patterns.

Definition collapse (s : string) : string := sub whitespace " " s.

(** What [clean_descriptions] does to the description of one row. *)
Definition clean (s : string) : string :=
  strip (collapse (remove_patterns s)).

(** The data frame, as far as the cleaning reads it: the rows with their
    description and the columns it leaves alone. *)
Record row := Row { description : string; other_columns : list string }.

Definition clean_descriptions (transactions_df : list row) : list row :=
  (λ r, Row (clean (description r)) (other_columns r)) <$> transactions_df.

End TransactionProcessor.

(** ** Python values, exceptions and effects *)

(** What [json.load] and [json.loads] return. The members of an object are
    the items of the resulting [dict], in insertion order. *)
#[local] Set Warnings "-register-all".

Inductive json :=
| JNull
| JBool (b : bool)
| JNum (n : Z)
| JStr (s : string)
| JArr (items : list json)
| JObj (members : list (string * json)).

Inductive exn :=
| TypeError
| AttributeError
| KeyError
| JSONDecodeError
| OSError
| OpenAIError.

Inductive result (A : Type) :=
| Ok (a : A)
| Raise (e : exn).
Arguments Ok {A} a.
Arguments Raise {A} e.

Module Py.
Import Text.

Definition bind {A B} (r : result A) (f : A → result B) : result B :=
  match r with
  | Ok a => f a
  | Raise e => Raise e
  end.

Fixpoint chars (s : string) : list json :=
  match s with
  | EmptyString => []
  | String c s' => JStr (String c EmptyString) :: chars s'
  end.

(** [v.items()] *)
Definition items (v : json) : result (list (string * json)) :=
  match v with
  | JObj members => Ok members
  | _ => Raise AttributeError
  end.

(** [iter(v)]: the elements of a list, the characters of a string, the
    keys of a dict; anything else is not iterable. *)
Definition iter (v : json) : result (list json) :=
  match v with
  | JArr l => Ok l
  | JStr s => Ok (chars s)
  | JObj members => Ok ((λ kv, JStr kv.1) <$> members)
  | _ => Raise TypeError
  end.

(** [v.lower()] *)
Definition lower (v : json) : result string :=
  match v with
  | JStr s => Ok (Text.lower s)
  | _ => Raise AttributeError
  end.

Fixpoint assoc (k : string) (members : list (string * json)) : option json :=
  match members with
  | [] => None
  | (k', v) :: rest => if bool_decide (k' = k) then Some v else assoc k rest
  end.

(** [v.get(k, default)] *)
Definition get (v : json) (k : string) (dflt : json) : result json :=
  match v with
  | JObj members => Ok (default dflt (assoc k members))
  | _ => Raise AttributeError
  end.

(** [not v] *)
Definition falsy (v : json) : bool :=
  match v with
  | JNull | JBool false | JNum 0 | JStr EmptyString | JArr [] | JObj [] => true
  | _ => false
  end.

Definition is_str (s : string) (v : json) : bool :=
  match v with
  | JStr s' => bool_decide (s' = s)
  | _ => false
  end.

(** [k in v] for a string [k] *)
Definition has (v : json) (k : string) : result bool :=
  match v with
  | JObj members => Ok (bool_decide (is_Some (assoc k members)))
  | JArr l => Ok (existsb (is_str k) l)
  | JStr s => Ok (contains s k)
  | _ => Raise TypeError
  end.

(** [v[k]] for a string [k] *)
Definition getitem (v : json) (k : string) : result json :=
  match v with
  | JObj members =>
      match assoc k members with
      | Some x => Ok x
      | None => Raise KeyError
      end
  | _ => Raise TypeError
  end.

End Py.

(** ** The classification service

    One request carries a batch of descriptions; the service answers with a
    payload, or the call fails. The entries of a payload are objects whose
    fields, when present, are strings (what the declared schema and the
    annotation [Dict[str, str]] have), or values that are no objects.
    Nothing else is assumed of an answer: it may name any description and
    any category. *)

Inductive entry :=
| Object (description category : option string)
| NotAnObject.

Inductive response :=
| RequestError   (* [responses.create], or reading the payload as a dict, raises *)
| Unparseable    (* [json.loads] raises [JSONDecodeError] *)
| Payload (categorized_transactions : option (list entry)).

(** The system message, by the data its text is formatted from. *)
Record system_message := SystemMessage {
  sm_categories : list string;
  sm_hints : list (string * json) }.

Record request := Request {
  rq_model : json;
  rq_system : system_message;
  rq_descriptions : list string;   (* the [transaction_objects] *)
  rq_enum : list string }.         (* the [enum] of the schema *)

(** A client answers a request, knowing how many were sent before it. *)
Definition openai_client := nat → request → response.

(** ** Environment and world *)

Inductive file :=
| Unreadable            (* a directory, no permission: [open] raises *)
| Malformed             (* no JSON inside: [json.load] raises *)
| Content (v : json).

Inductive logger := KeywordLogger | OpenAILogger | MainLogger.

Inductive level := DEBUG | INFO | WARNING | ERROR.

Definition levelno (l : level) : nat :=
  match l with DEBUG => 10 | INFO => 20 | WARNING => 30 | ERROR => 40 end.

(** A log record, by the numbers and names its text is formatted from; the
    lines that are logged together are one record. *)
Inductive message :=
| KeywordRulesLoadFailed (path : string)
| KeywordMatched (matched total : nat)
| AISettingsLoadFailed (path : string)
| BatchParseFailed (batch_no : nat)
| BatchFailed (batch_no : nat)
| ResultsHeader
| ResultLine (desc category : string)
| ResultsFooter (total categorized : nat)
| OpenAIProcessed (total : nat)
| OpenAIFailed (e : exn)
| MainCompleted (categorized total : nat)
| MainUncategorized (uncategorized : gset string).

(** What the program reads and never writes. *)
Record environment := Environment {
  files : gmap string file;             (* absent: no such path *)
  app_root : string;
  OpenAI : json → result openai_client;        (* [OpenAI(api_key=...)] *)
  effective_level : logger → nat;
  set_order : gset string → list string;
  set_order_perm : ∀ X, set_order X ≡ₚ elements X }.

(** What the program changes: the list objects, by reference, the requests
    sent and the records logged. *)
Record world := World {
  lists : gmap nat (list string);
  requests : list request;
  log : list (logger * level * message) }.

Definition M (A : Type) : Type := world → world * result A.

Module Eff.

Definition ret {A} (a : A) : M A := λ w, (w, Ok a).

Definition bind {A B} (m : M A) (f : A → M B) : M B :=
  λ w, match m w with
       | (w', Ok a) => f a w'
       | (w', Raise e) => (w', Raise e)
       end.

Definition lift {A} (r : result A) : M A := λ w, (w, r).

(** [try: body / except Exception as e: handler] *)
Definition try_except {A} (body : M A) (handler : exn → M A) : M A :=
  λ w, match body w with
       | (w', Ok a) => (w', Ok a)
       | (w', Raise e) => handler e w'
       end.

Definition read_list (r : nat) : M (list string) :=
  λ w, (w, Ok (default [] (lists w !! r))).

(** [r.append(x)] *)
Definition append (r : nat) (x : string) : M unit :=
  λ w, (World (<[r := default [] (lists w !! r) ++ [x]]> (lists w))
              (requests w) (log w), Ok ()).

Definition isEnabledFor (env : environment) (lg : logger) (l : level) : bool :=
  bool_decide (effective_level env lg ≤ levelno l).

Definition emit (env : environment) (lg : logger) (l : level) (m : message) : M unit :=
  λ w, if isEnabledFor env lg l
       then (World (lists w) (requests w) (log w ++ [(lg, l, m)]), Ok ())
       else (w, Ok ()).

(** [client.responses.create(...)] *)
Definition send (c : openai_client) (rq : request) : M response :=
  λ w, (World (lists w) (requests w ++ [rq]) (log w),
        Ok (c (length (requests w)) rq)).

End Eff.

#[global] Instance result_ret : MRet result := @Ok.
#[global] Instance result_bind : MBind result := λ A B f r, Py.bind r f.
#[global] Instance M_ret : MRet M := @Eff.ret.
#[global] Instance M_bind : MBind M := λ A B f m, Eff.bind m f.

(** ** Configuration files *)

Module Config.

(** [os.path.isabs] *)
Definition isabs (p : string) : bool := String.prefix "/" p.

Fixpoint ends_with_slash (a : string) : bool :=
  match a with
  | EmptyString => false
  | String c EmptyString => bool_decide (c = "/"%char)
  | String _ a' => ends_with_slash a'
  end.

(** [os.path.join(a, p)] for a relative [p] *)
Definition join (a p : string) : string :=
  match a with
  | EmptyString => p
  | _ => if ends_with_slash a then a +:+ p else a +:+ "/" +:+ p
  end.

(** The path that is opened: a relative path is looked up under the
    application root first. *)
Definition resolve (env : environment) (path : string) : string :=
  if isabs path then path
  else if bool_decide (is_Some (files env !! join (app_root env) path))
       then join (app_root env) path
       else path.

(** [with open(path) as f: return json.load(f)] *)
Definition load (env : environment) (path : string) : result json :=
  match files env !! path with
  | None => Raise OSError
  | Some Unreadable => Raise OSError
  | Some Malformed => Raise JSONDecodeError
  | Some (Content v) => Ok v
  end.

End Config.

(** ** The keyword tier ([src/categorizers/keyword.py]) *)

Module KeywordCategorizer.

Record t := Make {
  categories : nat;        (* the reference to the list object *)
  keyword_rules : json }.

Definition _load_keyword_rules (env : environment) (keyword_rules_file : string)
    : M json :=
  Eff.try_except
    (Eff.lift (Config.load env (Config.resolve env keyword_rules_file)))
    (λ _, Eff.emit env KeywordLogger ERROR
            (KeywordRulesLoadFailed (Config.resolve env keyword_rules_file));;
          mret (JObj [])).

Definition __init__ (env : environment) (categories : nat)
    (keyword_rules_file : string) : M t :=
  rules ← _load_keyword_rules env keyword_rules_file;
  mret (Make categories rules).

(** [any(keyword.lower() in desc_lower for keyword in keywords)], the
    keywords taken one after the other until one is found. *)
Fixpoint any_keyword (desc_lower : string) (keywords : list json) : result bool :=
  match keywords with
  | [] => Ok false
  | keyword :: rest =>
      k ← Py.lower keyword;
      if Text.contains desc_lower k then Ok true
      else any_keyword desc_lower rest
  end.

(** The inner loop over [self.keyword_rules.items()], left at the first
    category one of whose keywords is found. *)
Fixpoint first_category (desc_lower : string) (rules : list (string * json))
    : result (option string) :=
  match rules with
  | [] => Ok None
  | (category, keywords) :: rest =>
      kws ← Py.iter keywords;
      hit ← any_keyword desc_lower kws;
      if hit : bool then Ok (Some category)
      else first_category desc_lower rest
  end.

(** The body of the loop over the descriptions. *)
Definition categorize_one (rules : json) (results : gmap string string)
    (desc : string) : result (gmap string string) :=
  items ← Py.items rules;
  matched ← first_category (Text.lower desc) items;
  Ok (<[desc := default "Uncategorized" matched]> results).

Fixpoint for_each (rules : json) (results : gmap string string)
    (descs : list string) : result (gmap string string) :=
  match descs with
  | [] => Ok results
  | desc :: rest =>
      results' ← categorize_one rules results desc;
      for_each rules results' rest
  end.

Definition count_categorized (results : gmap string string) : nat :=
  size (filter (λ kv, kv.2 ≠ "Uncategorized") results).

Definition categorize (env : environment) (self : t) (descriptions : gset string)
    : M (gmap string string) :=
  results ← Eff.lift (for_each (keyword_rules self) ∅ (set_order env descriptions));
  Eff.emit env KeywordLogger INFO
    (KeywordMatched (count_categorized results) (size descriptions));;
  mret results.

End KeywordCategorizer.

(** ** The model tier ([src/categorizers/openai.py]) *)

Module OpenAICategorizer.

Record t := Make {
  categories : nat;          (* the reference to the list object *)
  settings : json;
  model : json;
  client : openai_client;
  hints : json;
  schema_enum : nat;         (* the schema holds the list object itself *)
  system_message : system_message }.

Definition _load_settings (env : environment) (ai_settings_file : string) : M json :=
  Eff.try_except
    (Eff.lift (Config.load env (Config.resolve env ai_settings_file)))
    (λ _, Eff.emit env OpenAILogger WARNING
            (AISettingsLoadFailed (Config.resolve env ai_settings_file));;
          mret (JObj [])).

(** The loop of [_format_hints]: the categories that have a hint, with it. *)
Fixpoint hint_lines (hints : json) (categories : list string)
    : result (list (string * json)) :=
  match categories with
  | [] => Ok []
  | category :: rest =>
      known ← Py.has hints category;
      if known : bool then
        h ← Py.getitem hints category;
        lines ← hint_lines hints rest;
        Ok ((category, h) :: lines)
      else hint_lines hints rest
  end.

Definition _format_hints (hints : json) (categories : list string)
    : result (list (string * json)) :=
  if Py.falsy hints then Ok [] else hint_lines hints categories.

Definition __init__ (env : environment) (categories : nat)
    (ai_settings_file : string) : M t :=
  cats ← Eff.read_list categories;
  (if bool_decide ("Uncategorized" ∈ cats) then mret ()
   else Eff.append categories "Uncategorized");;
  settings ← _load_settings env ai_settings_file;
  model ← Eff.lift (Py.get settings "openai" (JObj []) ≫= λ o,
                    Py.get o "model" (JStr "gpt-4.1-nano"));
  api_key ← Eff.lift (Py.get settings "openai" (JObj []) ≫= λ o,
                      Py.get o "api_key" JNull);
  client ← Eff.lift (OpenAI env api_key);
  hints ← Eff.lift (Py.get settings "category_hints" (JObj []));
  listed ← Eff.read_list categories;
  formatted ← Eff.lift (_format_hints hints listed);
  mret (Make categories settings model client hints categories
             (SystemMessage listed formatted)).

Definition batch_size : nat := 50.

(** [range(0, stop, step)]: [(stop + step - 1) // step] values. *)
Definition range (stop step : nat) : list nat :=
  (λ k, k * step) <$> seq 0 ((stop + step - 1) `div` step).

(** [l[i:i+batch_size]] *)
Definition slice (l : list string) (i : nat) : list string :=
  take batch_size (drop i l).

(** The loop over the entries of a payload. An entry that has both keys
    is written to [results]; an entry that is no object raises, and what
    was written before it stays written. *)
Fixpoint record_entries (results : gmap string string) (entries : list entry)
    : gmap string string * result unit :=
  match entries with
  | [] => (results, Ok ())
  | Object (Some description) (Some category) :: rest =>
      record_entries (<[description := category]> results) rest
  | Object _ _ :: rest => record_entries results rest
  | NotAnObject :: _ => (results, Raise TypeError)
  end.

(** The body of the loop over the batches, with its [try] and both
    [except] clauses: whatever is raised, the loop goes on. *)
Definition process_batch (env : environment) (self : t)
    (description_list : list string) (results : gmap string string) (i : nat)
    : M (gmap string string) :=
  let batch_descriptions := slice description_list i in
  enum ← Eff.read_list (schema_enum self);
  response ← Eff.send (client self)
    (Request (model self) (system_message self) batch_descriptions enum);
  match response with
  | RequestError =>
      Eff.emit env OpenAILogger ERROR (BatchFailed (i `div` batch_size + 1));;
      mret results
  | Unparseable =>
      Eff.emit env OpenAILogger ERROR (BatchParseFailed (i `div` batch_size + 1));;
      mret results
  | Payload categorized_transactions =>
      match record_entries results (default [] categorized_transactions) with
      | (results', Ok _) => mret results'
      | (results', Raise _) =>
          Eff.emit env OpenAILogger ERROR (BatchFailed (i `div` batch_size + 1));;
          mret results'
      end
  end.

Fixpoint for_batches (env : environment) (self : t)
    (description_list : list string) (results : gmap string string)
    (starts : list nat) : M (gmap string string) :=
  match starts with
  | [] => mret results
  | i :: rest =>
      results' ← process_batch env self description_list results i;
      for_batches env self description_list results' rest
  end.

(** [results[desc]] on the [defaultdict]: a missing key is inserted with
    the default before it is read. *)
Definition getitem_default (results : gmap string string) (desc : string)
    : gmap string string * string :=
  match results !! desc with
  | Some category => (results, category)
  | None => (<[desc := "Uncategorized"]> results, "Uncategorized")
  end.

Fixpoint log_results (env : environment) (results : gmap string string)
    (descs : list string) : M (gmap string string) :=
  match descs with
  | [] => mret results
  | desc :: rest =>
      let '(results', category) := getitem_default results desc in
      Eff.emit env OpenAILogger INFO (ResultLine desc category);;
      log_results env results' rest
  end.

Definition categorize (env : environment) (self : t) (descriptions : gset string)
    : M (gmap string string) :=
  if bool_decide (descriptions = ∅) then mret ∅
  else
    let description_list := set_order env descriptions in
    results ← for_batches env self description_list ∅
                (range (length description_list) batch_size);
    results ← (if Eff.isEnabledFor env OpenAILogger INFO then
                 Eff.emit env OpenAILogger INFO ResultsHeader;;
                 results' ← log_results env results (set_order env descriptions);
                 Eff.emit env OpenAILogger INFO
                   (ResultsFooter (size descriptions)
                      (KeywordCategorizer.count_categorized results'));;
                 mret results'
               else mret results);
    Eff.emit env OpenAILogger INFO (OpenAIProcessed (size descriptions));;
    mret results.

End OpenAICategorizer.

(** ** The orchestrator ([src/categorizers/main.py]) *)

Module MainCategorizer.

Record t := Make {
  categories : nat;
  keyword_categorizer : KeywordCategorizer.t;
  openai_categorizer : OpenAICategorizer.t }.

Definition __init__ (env : environment) (categories : nat)
    (keyword_rules_file ai_settings_file : string) : M t :=
  keyword_categorizer ← KeywordCategorizer.__init__ env categories keyword_rules_file;
  openai_categorizer ← OpenAICategorizer.__init__ env categories ai_settings_file;
  mret (Make categories keyword_categorizer openai_categorizer).

(** The descriptions the keyword tier left uncategorized. *)
Definition uncategorized (keyword_results : gmap string string) : gset string :=
  dom (filter (λ kv, kv.2 = "Uncategorized") keyword_results).

(** [categorize], for any second tier behind the [Categorizer] interface. *)
Definition categorize_with (env : environment) (keyword : KeywordCategorizer.t)
    (second_tier : gset string → M (gmap string string))
    (descriptions : gset string) : M (gmap string string) :=
  keyword_results ← KeywordCategorizer.categorize env keyword descriptions;
  let uncategorized := uncategorized keyword_results in
  keyword_results ←
    (if bool_decide (uncategorized = ∅) then mret keyword_results
     else Eff.try_except
            (openai_results ← second_tier uncategorized;
             (* keyword_results.update(openai_results) *)
             mret (openai_results ∪ keyword_results))
            (λ e, Eff.emit env MainLogger ERROR (OpenAIFailed e);;
                  mret keyword_results));
  Eff.emit env MainLogger INFO
    (MainCompleted (KeywordCategorizer.count_categorized keyword_results)
                   (size descriptions));;
  Eff.emit env MainLogger INFO (MainUncategorized uncategorized);;
  mret keyword_results.

Definition categorize (env : environment) (self : t) (descriptions : gset string)
    : M (gmap string string) :=
  categorize_with env (keyword_categorizer self)
    (OpenAICategorizer.categorize env (openai_categorizer self)) descriptions.

End MainCategorizer.

(** ** The processor ([src/transaction_processor.py])

    Loading the categories, and categorizing and processing a frame. The
    records of the module's own logger are kept in a journal beside the
    world of the categorizers; [lvl] is the effective level of that
    logger. *)

Module Processor.

Inductive record :=
| CategoriesLoadFailed
| CleanedDescriptions (rows : nat)
| CategorizedTransactions (rows : nat).

Record state := State {
  pipeline : world;
  journal : list (level * record) }.

Definition P (A : Type) : Type := state → state * result A.

Definition ret {A} (a : A) : P A := λ s, (s, Ok a).

Definition bind {A B} (m : P A) (f : A → P B) : P B :=
  λ s, match m s with
       | (s', Ok a) => f a s'
       | (s', Raise e) => (s', Raise e)
       end.

(** A computation of the categorizers, run on the world of the state. *)
Definition lift {A} (m : M A) : P A :=
  λ s, (State (m (pipeline s)).1 (journal s), (m (pipeline s)).2).

Definition emit (lvl : nat) (l : level) (r : record) : P unit :=
  λ s, if bool_decide (lvl ≤ levelno l)
       then (State (pipeline s) (journal s ++ [(l, r)]), Ok ())
       else (s, Ok ()).

(** The processor object: the reference to its category list and its
    categorizer. *)
Record t := Make {
  categories : nat;
  categorizer : MainCategorizer.t }.

(** [_load_categories]: the [.get] is inside the [try], so that a file
    that holds no object ends in the [except] clause as well. *)
Definition _load_categories (env : environment) (lvl : nat)
    (categories_file : string) : P json :=
  match Py.bind (Config.load env categories_file)
          (λ data, Py.get data "categories" (JArr [])) with
  | Ok categories => ret categories
  | Raise _ => bind (emit lvl ERROR CategoriesLoadFailed) (λ _, ret (JArr []))
  end.

(** A row of the frame with the value of its [category] column, which
    the assignment creates or overwrites; the other columns of the row
    are those besides [description] and [category]. *)
Record categorized := Categorized {
  row_of : TransactionProcessor.row;
  category : string }.

(** [[category_mapping[desc] for desc in descriptions]] *)
Fixpoint lookup_all (category_mapping : gmap string string)
    (descriptions : list string) : result (list string) :=
  match descriptions with
  | [] => Ok []
  | desc :: rest =>
      match category_mapping !! desc with
      | None => Raise KeyError
      | Some c => Py.bind (lookup_all category_mapping rest) (λ cs, Ok (c :: cs))
      end
  end.

Definition clean_descriptions (lvl : nat)
    (transactions_df : list TransactionProcessor.row)
    : P (list TransactionProcessor.row) :=
  bind (emit lvl INFO (CleanedDescriptions (length transactions_df)))
    (λ _, ret (TransactionProcessor.clean_descriptions transactions_df)).

Definition categorize_transactions (env : environment) (lvl : nat) (self : t)
    (transactions_df : list TransactionProcessor.row) : P (list categorized) :=
  let descriptions := TransactionProcessor.description <$> transactions_df in
  bind (lift (MainCategorizer.categorize env (categorizer self)
                (list_to_set descriptions)))
    (λ category_mapping,
       bind (λ s, (s, lookup_all category_mapping descriptions))
         (λ cats,
            bind (emit lvl INFO (CategorizedTransactions (length descriptions)))
              (λ _, ret (zip_with Categorized transactions_df cats)))).

Definition process_transactions (env : environment) (lvl : nat) (self : t)
    (transactions_df : list TransactionProcessor.row) : P (list categorized) :=
  bind (clean_descriptions lvl transactions_df)
    (λ cleaned_df, categorize_transactions env lvl self cleaned_df).

End Processor.

(** * Vocabulary of the statements *)

Module EffSpec.

(** The world after a record was offered to a logger. *)
Definition logged (env : environment) (lg : logger) (l : level) (m : message)
    (w : world) : world :=
  (Eff.emit env lg l m w).1.

End EffSpec.

(** ** Whitespace normal form *)

Module CleanSpec.
Import Text Re TransactionProcessor.

Definition starts_with_space (s : string) : bool :=
  match s with
  | EmptyString => false
  | String a _ => isspace a
  end.

(** Every whitespace character is one space that no whitespace follows. *)
Fixpoint single_spaced (s : string) : bool :=
  match s with
  | EmptyString => true
  | String a s' =>
      (if isspace a then bool_decide (a = " "%char) && negb (starts_with_space s')
       else true) && single_spaced s'
  end.

(** The length of the whitespace run [s] starts with. *)
Fixpoint run (s : string) : nat :=
  match s with
  | EmptyString => 0
  | String a s' => if isspace a then S (run s') else 0
  end.

Definition collapse_from (b : bool) (s : string) : string :=
  sub_from whitespace " " b 0 s.

(** One of the removal patterns is found in [s]. *)
Definition pattern_found (s : string) : bool :=
  existsb (λ p, search p true s) patterns.

End CleanSpec.

(** ** Keyword rules of the declared shape *)

Module KeywordSpec.

(** The content of a rules file that is what the annotation
    [Dict[str, List[str]]] says: category names with lists of keywords. *)
Definition of_rules (rules : list (string * list string)) : json :=
  JObj ((λ r, (r.1, JArr (JStr <$> r.2))) <$> rules).

(** [k] occurs in [s]. *)
Definition occurs_in (k s : string) : Prop :=
  ∃ before after, s = before +:+ k +:+ after.

(** One of the keywords, lowercased, occurs in the lowercased description. *)
Definition hits (desc : string) (keywords : list string) : Prop :=
  ∃ k, k ∈ keywords ∧ occurs_in (Text.lower k) (Text.lower desc).

(** First match wins: [c] is the first category, in the order of the
    rules, one of whose keywords hits; or no category hits and [c] is the
    sentinel. *)
Definition assigned (rules : list (string * list string)) (desc c : string) : Prop :=
  (∃ earlier keywords later,
      rules = earlier ++ (c, keywords) :: later
      ∧ hits desc keywords
      ∧ ∀ r, r ∈ earlier → ¬ hits desc r.2)
  ∨ (c = "Uncategorized" ∧ ∀ r, r ∈ rules → ¬ hits desc r.2).

Definition hitsb (desc : string) (keywords : list string) : bool :=
  existsb (λ k, Text.contains (Text.lower desc) (Text.lower k)) keywords.

Definition assign (rules : list (string * list string)) (desc : string) : string :=
  default "Uncategorized" (fst <$> find (λ r, hitsb desc r.2) rules).

(** The mapping of the keyword tier over [D]. *)
Definition keyword_map (rules : list (string * list string)) (D : gset string)
    : gmap string string :=
  set_to_map (λ d, (d, assign rules d)) D.

End KeywordSpec.

(** ** What the model tier records *)

Module ModelSpec.
Import OpenAICategorizer.

(** The request built for a batch. *)
Definition request_for (self : t) (w : world) (batch : list string) : request :=
  Request (model self) (system_message self) batch
          (default [] (lists w !! schema_enum self)).

(** The batches of a description list. *)
Definition batches (l : list string) : list (list string) :=
  slice l <$> range (length l) batch_size.

(** The effect of one answer on [results]. *)
Definition absorb (results : gmap string string) (r : response) : gmap string string :=
  match r with
  | Payload es => (record_entries results (default [] es)).1
  | _ => results
  end.

(** The effect of the answers to the requests number [n], [n + 1], ...,
    one per batch. *)
Fixpoint record_batches (c : openai_client) (mk : list string → request) (n : nat)
    (results : gmap string string) (bs : list (list string)) : gmap string string :=
  match bs with
  | [] => results
  | b :: rest => record_batches c mk (S n) (absorb results (c n (mk b))) rest
  end.

(** The keys the logging loop adds to the [defaultdict]. *)
Definition fill (results : gmap string string) (descs : list string)
    : gmap string string :=
  foldl (λ r d, (getitem_default r d).1) results descs.

(** An answer to the request number [n] names [d] with the category [c]. *)
Definition names_at (cl : openai_client) (n : nat) (rq : request) (d c : string) : Prop :=
  ∃ es, cl n rq = Payload (Some es) ∧ Object (Some d) (Some c) ∈ es.

(** Some answer of the client names [d] with [c]. *)
Definition names (cl : openai_client) (d c : string) : Prop :=
  ∃ n rq, names_at cl n rq d c.

(** The client answers about what it was asked, within the enum: every
    pair it returns names a description of the request and a category of
    the request's enum. *)
Definition faithful (cl : openai_client) : Prop :=
  ∀ n rq d c, names_at cl n rq d c →
    d ∈ rq_descriptions rq ∧ c ∈ rq_enum rq.

(** What the loop over the batches leaves in [results]. *)
Definition recorded (env : environment) (self : t) (X : gset string) (w : world)
    : gmap string string :=
  record_batches (client self) (request_for self w) (length (requests w)) ∅
    (batches (set_order env X)).

(** What the tier returns: with INFO enabled for its logger, the logging
    loop has filled in the default for every description. *)
Definition returned (env : environment) (self : t) (X : gset string) (w : world)
    : gmap string string :=
  if Eff.isEnabledFor env OpenAILogger INFO
  then fill (recorded env self X w) (set_order env X)
  else recorded env self X w.

End ModelSpec.

(** ** Construction and merge *)

Module InitSpec.

(** The list objects after the model tier was constructed on the list [r]. *)
Definition lists_after (r : nat) (w : world) : gmap nat (list string) :=
  let cats := default [] (lists w !! r) in
  if bool_decide ("Uncategorized" ∈ cats) then lists w
  else <[r := cats ++ ["Uncategorized"]]> (lists w).

(** The rules the keyword tier holds after its construction. *)
Definition loaded_rules (env : environment) (path : string) : json :=
  match Config.load env (Config.resolve env path) with
  | Ok v => v
  | Raise _ => JObj []
  end.

End InitSpec.

Module MainSpec.
Import MainCategorizer ModelSpec.

(** The merge: what the second tier returned, over the keyword results. *)
Definition merged (env : environment) (self : t) (kr : gmap string string)
    (w : world) : gmap string string :=
  if bool_decide (uncategorized kr = ∅) then kr
  else returned env (openai_categorizer self) (uncategorized kr) w ∪ kr.

(** The requests of one call, given the keyword results: one for each
    batch of the uncategorized descriptions. *)
Definition sent (env : environment) (self : t) (kr : gmap string string)
    (w : world) : list request :=
  request_for (openai_categorizer self) w
    <$> batches (set_order env (uncategorized kr)).

(** The same environment with other logger levels. *)
Definition with_levels (env : environment) (lv : logger → nat) : environment :=
  Environment (files env) (app_root env) (OpenAI env) lv
              (set_order env) (set_order_perm env).

End MainSpec.

(** ** The claims that are refuted, as predicates *)

Module Claims.

(** The configured category list of an orchestrator. *)
Definition configured (self : MainCategorizer.t) (w : world) : list string :=
  default [] (lists w !! MainCategorizer.categories self).

(** Totality: the orchestrator returns a mapping whose key set is the
    input set and whose values are configured categories or the sentinel. *)
Definition total (env : environment) (self : MainCategorizer.t)
    (D : gset string) (w : world) : Prop :=
  ∃ w' m,
    MainCategorizer.categorize env self D w = (w', Ok m)
    ∧ dom m = D
    ∧ ∀ d c, m !! d = Some c → c ∈ configured self w ∨ c = "Uncategorized".

(** Keyword precedence: a description the keyword tier gave a category to
    keeps it in the final mapping and is in no request. *)
Definition keyword_wins (env : environment) (self : MainCategorizer.t)
    (D : gset string) (w : world) : Prop :=
  ∀ w1 kr d c,
    KeywordCategorizer.categorize env (MainCategorizer.keyword_categorizer self) D w
    = (w1, Ok kr) →
    kr !! d = Some c → c ≠ "Uncategorized" →
    ∃ w' m new,
      MainCategorizer.categorize env self D w = (w', Ok m)
      ∧ m !! d = Some c
      ∧ requests w' = requests w ++ new
      ∧ ∀ rq, rq ∈ new → d ∉ rq_descriptions rq.

(** No category outside the enum is in the mapping of the model tier. *)
Definition within_enum (env : environment) (self : OpenAICategorizer.t)
    (X : gset string) (w : world) : Prop :=
  ∀ w' m,
    OpenAICategorizer.categorize env self X w = (w', Ok m) →
    ∀ d c, m !! d = Some c →
      c ∈ default [] (lists w !! OpenAICategorizer.schema_enum self).

(** The cleaning is idempotent at [x]. *)
Definition idempotent_at (x : string) : Prop :=
  TransactionProcessor.clean (TransactionProcessor.clean x)
  = TransactionProcessor.clean x.

(** [categorize] returns a mapping: it raises nothing. *)
Definition returns (env : environment) (self : MainCategorizer.t)
    (D : gset string) (w : world) : Prop :=
  ∃ w' m, MainCategorizer.categorize env self D w = (w', Ok m).

End Claims.

(** ** Concrete configurations *)

Module Examples.

Definition keyword_rules_file : string := "config/keyword_rules.json".
Definition ai_settings_file : string := "config/ai_classifier_settings.json".

Definition settings : json :=
  JObj [("openai", JObj [("api_key", JStr "key")])].

(** The application under [/app], with the rules file [rules], a client
    [cl] and every logger at the level [lvl]; sets are iterated in the
    order of [elements]. *)
Definition environment_of (rules : file) (cl : openai_client) (lvl : nat)
    : environment :=
  Environment
    {[ "/app/config/keyword_rules.json" := rules;
       "/app/config/ai_classifier_settings.json" := Content settings ]}
    "/app" (λ _, Ok cl) (λ _, lvl) elements (λ X, reflexivity (elements X)).

(** [{"Groceries": ["migros"], "Transport": ["sbb"]}] *)
Definition shop_rules : list (string * list string) :=
  [("Groceries", ["migros"]); ("Transport", ["sbb"])].

(** [{"Food": 5}]: JSON, but no list of keywords. *)
Definition misshaped_rules : json := JObj [("Food", JNum 5)].

(** The caller's category list is the list object 0. *)
Definition start : world := World {[ 0 := ["Groceries"; "Transport"] ]} [] [].

(** A client that answers every request with the same entries. *)
Definition answers (es : list entry) : openai_client :=
  λ _ _, Payload (Some es).

(** A client all of whose requests fail. *)
Definition failing : openai_client := λ _ _, RequestError.

(** A client that repeats the descriptions it is asked about, all with
    the category [c]. *)
Definition echo (c : string) : openai_client :=
  λ _ rq, Payload (Some ((λ d, Object (Some d) (Some c)) <$> rq_descriptions rq)).

(** A client that keeps to the request: it repeats the descriptions it is
    asked about, all with the first category of the enum. *)
Definition cautious : openai_client :=
  λ _ rq, match rq_enum rq with
          | [] => Payload (Some [])
          | c :: _ =>
              Payload (Some ((λ d, Object (Some d) (Some c)) <$> rq_descriptions rq))
          end.

Definition construct (env : environment) : world * result MainCategorizer.t :=
  MainCategorizer.__init__ env 0 keyword_rules_file ai_settings_file start.

(** The orchestrator and the world after its construction. *)
Definition constructed (env : environment) : MainCategorizer.t :=
  match (construct env).2 with
  | Ok self => self
  | Raise _ =>
      MainCategorizer.Make 0 (KeywordCategorizer.Make 0 JNull)
        (OpenAICategorizer.Make 0 JNull JNull failing JNull 0 (SystemMessage [] []))
  end.

Definition world_after (env : environment) : world := (construct env).1.

Definition shop_env (cl : openai_client) (lvl : nat) : environment :=
  environment_of (Content (KeywordSpec.of_rules shop_rules)) cl lvl.

Definition descriptions : gset string :=
  {[ "MIGROS Zurich"; "SBB Ticket"; "Unknown Shop" ]}.

End Examples.

(** ** Vocabulary of the further properties *)

Module MoreSpec.


(** Two rule lists with the same categories and, up to case, the same
    keywords. *)
Definition same_up_to_case (rules rules' : list (string * list string)) : Prop :=
  Forall2 (λ r r', r.1 = r'.1 ∧ Text.lower <$> r.2 = Text.lower <$> r'.2)
          rules rules'.

(** A client that answers every request with one pair for each
    description of the request, with the category [f] gives it. *)
Definition answering (f : string → string) : openai_client :=
  λ _ rq, Payload (Some ((λ d, Object (Some d) (Some (f d))) <$> rq_descriptions rq)).

(** The final category of the two tiers, when the client answers with [f]. *)
Definition two_tier (rules : list (string * list string)) (f : string → string)
    (d : string) : string :=
  if bool_decide (KeywordSpec.assign rules d = "Uncategorized") then f d
  else KeywordSpec.assign rules d.

(** What the construction of the model tier returns once the settings
    are loaded and the list of categories, as it is after the append, is
    read. *)
Definition configured_with (env : environment) (r : nat) (settings : json)
    (listed : list string) : result OpenAICategorizer.t :=
  model ← Py.get settings "openai" (JObj []) ≫= (λ o,
            Py.get o "model" (JStr "gpt-4.1-nano"));
  api_key ← Py.get settings "openai" (JObj []) ≫= (λ o, Py.get o "api_key" JNull);
  client ← OpenAI env api_key;
  hints ← Py.get settings "category_hints" (JObj []);
  formatted ← OpenAICategorizer._format_hints hints listed;
  Ok (OpenAICategorizer.Make r settings model client hints r
        (SystemMessage listed formatted)).

End MoreSpec.

(** * Properties *)

#[local] Set Warnings "-clear-no-such-hyp".

(** ** Running computations *)

Module EffFacts.
Export EffSpec.

Lemma bind_run {A B} (m : M A) (f : A → M B) w :
  (m ≫= f) w = match m w with
               | (w', Ok a) => f a w'
               | (w', Raise e) => (w', Raise e)
               end.
Proof. done. Qed.

Lemma ret_run {A} (a : A) w : (mret a : M A) w = (w, Ok a).
Proof. done. Qed.

Lemma emit_run env lg l m w :
  Eff.emit env lg l m w = (logged env lg l m w, Ok ()).
Proof. unfold logged, Eff.emit. by destruct (Eff.isEnabledFor env lg l). Qed.

Lemma logged_lists env lg l m w : lists (logged env lg l m w) = lists w.
Proof. unfold logged, Eff.emit. by destruct (Eff.isEnabledFor env lg l). Qed.

Lemma logged_requests env lg l m w : requests (logged env lg l m w) = requests w.
Proof. unfold logged, Eff.emit. by destruct (Eff.isEnabledFor env lg l). Qed.

End EffFacts.

(** ** The description normalizer *)

Module CleanFacts.
Import Text Re TransactionProcessor CleanSpec.

Lemma search_none p repl b s :
  search p b s = false → sub_from p repl b 0 s = s.
Proof.
  revert b. induction s as [|a s IH]; intros b; cbn.
  - intros H. apply bool_decide_eq_false in H.
    destruct (match_here p b "") as [n|]; [|done].
    destruct H; eauto.
  - intros [H1 H2]%orb_false_elim.
    apply bool_decide_eq_false in H1.
    destruct (match_here p b (String a s)) as [n|].
    + destruct H1; eauto.
    + by rewrite IH.
Qed.

Lemma match_whitespace b s :
  match_here whitespace b s
  = match s with
    | EmptyString => None
    | String a s' => if isspace a then Some (S (run s')) else None
    end.
Proof.
  unfold whitespace; cbn [match_here]. clear b.
  induction s as [|a s IH]; [done|]. cbn [many1 mem].
  destruct (isspace a); [|done]. rewrite IH.
  destruct s as [|a' s']; [done|]. cbn [run].
  by destruct (isspace a').
Qed.

Lemma sub_skip_run p repl s :
  sub_from p repl false (run s) s = sub_from p repl false 0 (lstrip s).
Proof.
  induction s as [|a s IH]; [done|]. cbn [run lstrip].
  destruct (isspace a); [|done]. by cbn [sub_from].
Qed.

Lemma collapse_from_nil b : collapse_from b "" = "".
Proof. done. Qed.

Lemma collapse_from_cons b a s :
  collapse_from b (String a s)
  = if isspace a then String " " (collapse_from false (lstrip s))
    else String a (collapse_from false s).
Proof.
  unfold collapse_from. cbn [sub_from]. rewrite match_whitespace.
  destruct (isspace a); [|done]. by rewrite sub_skip_run.
Qed.

Lemma lstrip_length s : String.length (lstrip s) ≤ String.length s.
Proof. induction s as [|a s IH]; cbn; [lia|]. destruct (isspace a); cbn; lia. Qed.

Lemma lstrip_no_space s : starts_with_space (lstrip s) = false.
Proof.
  induction s as [|a s IH]; [done|]. cbn.
  destruct (isspace a) eqn:E; [done|]. by cbn.
Qed.

Lemma lstrip_id s : starts_with_space s = false → lstrip s = s.
Proof. destruct s as [|a s]; [done|]. cbn. by intros ->. Qed.

Lemma collapse_from_starts b s :
  starts_with_space s = false → starts_with_space (collapse_from b s) = false.
Proof.
  destruct s as [|a s]; [done|]. rewrite collapse_from_cons.
  cbn [starts_with_space]. intros E. by rewrite E.
Qed.

Lemma collapse_single_spaced b s : single_spaced (collapse_from b s) = true.
Proof.
  remember (String.length s) as n eqn:Hn.
  revert b s Hn. induction (lt_wf n) as [n _ IH]. intros b s ->.
  destruct s as [|a s]; [done|]. rewrite collapse_from_cons.
  destruct (isspace a) eqn:E.
  - cbn [single_spaced]. change (isspace " ") with true.
    rewrite bool_decide_eq_true_2 by done.
    rewrite collapse_from_starts by apply lstrip_no_space.
    cbn. eapply IH; [|done]. pose proof (lstrip_length s). cbn. lia.
  - cbn [single_spaced]. rewrite E. cbn. eapply IH; [|done]. cbn. lia.
Qed.

Lemma single_spaced_collapse b s :
  single_spaced s = true → collapse_from b s = s.
Proof.
  revert b. induction s as [|a s IH]; intros b; [done|].
  rewrite collapse_from_cons. cbn [single_spaced].
  destruct (isspace a).
  - intros [[Ha Hs]%andb_prop Hr]%andb_prop.
    apply bool_decide_eq_true in Ha as ->.
    apply negb_true_iff in Hs. by rewrite lstrip_id, IH.
  - cbn. intros Hr. by rewrite IH.
Qed.

Lemma lstrip_single_spaced s :
  single_spaced s = true → single_spaced (lstrip s) = true.
Proof.
  induction s as [|a s IH]; [done|]. cbn [lstrip].
  destruct (isspace a) eqn:E; [|done].
  cbn [single_spaced]. intros [_ Hr]%andb_prop. auto.
Qed.

Lemma rstrip_cons a s :
  rstrip (String a s) = EmptyString ∨ ∃ r, rstrip (String a s) = String a r.
Proof.
  cbn. destruct (rstrip s); [destruct (isspace a)|]; eauto.
Qed.

Lemma rstrip_starts s :
  starts_with_space s = false → starts_with_space (rstrip s) = false.
Proof.
  destruct s as [|a s]; [done|]. intros H.
  destruct (rstrip_cons a s) as [->|[r ->]]; [done|]. by cbn in *.
Qed.

Lemma rstrip_single_spaced s :
  single_spaced s = true → single_spaced (rstrip s) = true.
Proof.
  induction s as [|a s IH]; [done|]. cbn [single_spaced rstrip].
  intros [Ha Hr]%andb_prop. specialize (IH Hr).
  destruct (rstrip s) as [|a' r] eqn:Er.
  - destruct (isspace a) eqn:E; [done|]. cbn. by rewrite E.
  - cbn [single_spaced] in *. rewrite IH, andb_true_r.
    destruct (isspace a); [|done].
    apply andb_prop in Ha as [-> Hs]. cbn.
    apply negb_true_iff in Hs. apply rstrip_starts in Hs.
    rewrite Er in Hs. cbn in Hs. by rewrite Hs.
Qed.

Lemma rstrip_idemp s : rstrip (rstrip s) = rstrip s.
Proof.
  induction s as [|a s IH]; [done|]. cbn [rstrip].
  destruct (rstrip s) as [|a' r] eqn:Er.
  - destruct (isspace a) eqn:E; [done|]. cbn. by rewrite E.
  - cbn [rstrip] in *. by rewrite IH.
Qed.

Lemma strip_idemp s : strip (strip s) = strip s.
Proof.
  unfold strip. rewrite (lstrip_id (rstrip _)).
  - apply rstrip_idemp.
  - apply rstrip_starts, lstrip_no_space.
Qed.

(** The cleaned text is in whitespace normal form: collapsing and
    trimming it again changes nothing. *)
Lemma clean_whitespace_normal x : strip (collapse (clean x)) = clean x.
Proof.
  unfold clean at 1. unfold collapse at 1, sub.
  fold (collapse_from true (strip (collapse (remove_patterns x)))).
  rewrite single_spaced_collapse.
  - apply strip_idemp.
  - apply rstrip_single_spaced, lstrip_single_spaced, collapse_single_spaced.
Qed.

Lemma remove_patterns_none ps s :
  existsb (λ p, search p true s) ps = false →
  foldl (λ d p, sub p "" d) s ps = s.
Proof.
  induction ps as [|p ps IH]; [done|]. cbn.
  intros [H1 H2]%orb_false_elim.
  unfold sub at 2. rewrite search_none by done. auto.
Qed.

End CleanFacts.

(** ** The keyword tier *)

Module KeywordFacts.
Import Text KeywordCategorizer KeywordSpec EffFacts.

Lemma app_cons a s t : String a s +:+ t = String a (s +:+ t).
Proof. done. Qed.

Lemma prefix_spec k s :
  String.prefix k s = true ↔ ∃ after, s = k +:+ after.
Proof.
  revert s. induction k as [|a k IH]; intros s.
  - split; [eauto|]. intros _. by destruct s.
  - destruct s as [|b s]; cbn.
    + split; [done|]. intros [? H]. by rewrite app_cons in H.
    + destruct (Ascii.ascii_dec a b) as [->|Hne].
      * rewrite IH. split; intros [after H]; exists after;
          rewrite ?app_cons in *; congruence.
      * split; [done|]. intros [? H]. rewrite app_cons in H. congruence.
Qed.

Lemma contains_spec s k : contains s k = true ↔ occurs_in k s.
Proof.
  unfold occurs_in. induction s as [|a s IH]; cbn [contains].
  - destruct (String.prefix k "") eqn:E.
    + apply prefix_spec in E as [after E]. split; [|done].
      intros _. by exists "", after.
    + split; [done|]. intros (before & after & H).
      destruct before; [|done].
      assert (String.prefix k "" = true) by (apply prefix_spec; eauto).
      congruence.
  - destruct (String.prefix k (String a s)) eqn:E.
    + apply prefix_spec in E as [after E]. split; [|done].
      intros _. by exists "", after.
    + rewrite IH. split.
      * intros (before & after & ->). by exists (String a before), after.
      * intros (before & after & H). destruct before as [|b before].
        -- assert (String.prefix k (String a s) = true)
             by (apply prefix_spec; eauto).
           congruence.
        -- rewrite app_cons in H. injection H as -> ->. eauto.
Qed.

Lemma hitsb_spec desc keywords : hitsb desc keywords = true ↔ hits desc keywords.
Proof.
  unfold hitsb, hits. rewrite existsb_exists. split.
  - intros (k & Hk & Hc). exists k. split; [by apply list_elem_of_In|].
    by apply contains_spec.
  - intros (k & Hk & Hc). exists k. split; [by apply list_elem_of_In|].
    by apply contains_spec.
Qed.

Lemma hitsb_false desc keywords : hitsb desc keywords = false ↔ ¬ hits desc keywords.
Proof. rewrite <- hitsb_spec. by destruct (hitsb desc keywords). Qed.

(** The executable choice and the first-match relation agree. *)
Lemma assigned_assign rules desc c : assigned rules desc c ↔ c = assign rules desc.
Proof.
  unfold assigned, assign. induction rules as [|[c0 kws0] rules IH].
  - split.
    + intros [(earlier & ? & ? & H & _)|[-> _]]; [|done].
      by destruct earlier.
    + intros ->. right. split; [done|]. by intros r ?%elem_of_nil.
  - change (find _ ((c0, kws0) :: rules))
      with (if hitsb desc kws0 then Some (c0, kws0)
            else find (λ r, hitsb desc r.2) rules).
    destruct (hitsb desc kws0) eqn:E.
    + split.
      * intros [(earlier & kws & later & H & Hhit & Hno)|[_ Hno]].
        -- destruct earlier as [|r earlier]; [by injection H as -> _ _|].
           injection H as <- _. exfalso.
           apply (Hno (c0, kws0)); [by left|]. by apply hitsb_spec.
        -- exfalso. apply (Hno (c0, kws0)); [by left|]. by apply hitsb_spec.
      * intros ->. left. exists [], kws0, rules.
        split; [done|]. split; [by apply hitsb_spec|]. by intros r ?%elem_of_nil.
    + rewrite <- IH. apply hitsb_false in E. split.
      * intros [(earlier & kws & later & H & Hhit & Hno)|[-> Hno]].
        -- destruct earlier as [|r earlier].
           { injection H as <- <- _. done. }
           injection H as <- ->. left. exists earlier, kws, later.
           split; [done|]. split; [done|]. intros r Hr. apply Hno. by right.
        -- right. split; [done|]. intros r Hr. apply Hno. by right.
      * intros [(earlier & kws & later & -> & Hhit & Hno)|[-> Hno]].
        -- left. exists ((c0, kws0) :: earlier), kws, later.
           split; [done|]. split; [done|].
           intros r [->|Hr]%elem_of_cons; auto.
        -- right. split; [done|].
           intros r [->|Hr]%elem_of_cons; auto.
Qed.

Lemma any_keyword_typed desc_lower keywords :
  any_keyword desc_lower (JStr <$> keywords)
  = Ok (existsb (λ k, contains desc_lower (lower k)) keywords).
Proof.
  induction keywords as [|k keywords IH]; [done|]. cbn.
  by destruct (contains desc_lower (lower k)).
Qed.

Lemma first_category_typed desc rules :
  first_category (lower desc) ((λ r, (r.1, JArr (JStr <$> r.2))) <$> rules)
  = Ok (fst <$> find (λ r, hitsb desc r.2) rules).
Proof.
  induction rules as [|[c kws] rules IH]; [done|]. cbn.
  rewrite any_keyword_typed. cbn. unfold hitsb at 1.
  by destruct (existsb _ kws).
Qed.

Lemma for_each_typed rules results descs :
  for_each (of_rules rules) results descs
  = Ok (foldl (λ r d, <[d := assign rules d]> r) results descs).
Proof.
  revert results. induction descs as [|d descs IH]; intros results; [done|].
  cbn. unfold categorize_one, of_rules. cbn.
  rewrite first_category_typed. cbn. apply IH.
Qed.

Lemma foldl_insert_lookup (f : string → string)
    (results : gmap string string) (descs : list string) (d : string) :
  foldl (λ r d, <[d := f d]> r) results descs !! d
  = if decide (d ∈ descs) then Some (f d) else results !! d.
Proof.
  revert results. induction descs as [|d' descs IH]; intros results; cbn.
  - by rewrite decide_False by apply not_elem_of_nil.
  - rewrite IH. destruct (decide (d ∈ descs)) as [Hin|Hnin].
    + by rewrite decide_True by (by right).
    + destruct (decide (d = d')) as [->|Hne].
      * rewrite decide_True by (by left). apply lookup_insert_eq.
      * rewrite decide_False by (by intros [?|?]%elem_of_cons).
        by apply lookup_insert_ne.
Qed.

Lemma keyword_map_lookup rules D d :
  keyword_map rules D !! d = if decide (d ∈ D) then Some (assign rules d) else None.
Proof.
  unfold keyword_map. destruct (decide (d ∈ D)) as [Hin|Hnin].
  - apply lookup_set_to_map; [|eauto]. by intros ?? _ _ H.
  - apply eq_None_not_Some. intros [c Hc].
    apply lookup_set_to_map in Hc as (d' & Hd' & H).
    + by injection H as -> _.
    + by intros ?? _ _ ?.
Qed.

Lemma set_order_elem env (X : gset string) d : d ∈ set_order env X ↔ d ∈ X.
Proof. by rewrite (set_order_perm env X), elem_of_elements. Qed.

Lemma set_order_NoDup env (X : gset string) : NoDup (set_order env X).
Proof. rewrite (set_order_perm env X). apply NoDup_elements. Qed.

Lemma set_order_length env (X : gset string) : length (set_order env X) = size X.
Proof. by rewrite (set_order_perm env X). Qed.

Lemma set_order_nil env (X : gset string) : set_order env X = [] ↔ X = ∅.
Proof.
  split.
  - intros H. apply set_eq. intros d. rewrite <- (set_order_elem env), H.
    set_solver.
  - intros ->. apply Permutation_nil_r. rewrite (set_order_perm env ∅).
    by rewrite elements_empty.
Qed.

(** The keyword tier on rules of the declared shape: it returns, and what
    it returns is [keyword_map]. *)
Lemma keyword_categorize_typed env cats rules D w :
  categorize env (Make cats (of_rules rules)) D w
  = (logged env KeywordLogger INFO
       (KeywordMatched (count_categorized (keyword_map rules D)) (size D)) w,
     Ok (keyword_map rules D)).
Proof.
  unfold categorize. cbn [keyword_rules]. rewrite for_each_typed.
  assert (foldl (λ r d, <[d := assign rules d]> r) ∅ (set_order env D)
          = keyword_map rules D) as ->.
  { apply map_eq. intros d. rewrite foldl_insert_lookup, keyword_map_lookup.
    destruct (decide (d ∈ D)) as [Hin|Hnin].
    - by rewrite decide_True by (by apply set_order_elem).
    - rewrite decide_False by (by rewrite set_order_elem). apply lookup_empty. }
  rewrite bind_run. unfold Eff.lift. rewrite bind_run, emit_run. done.
Qed.

(** Whatever the rules are, a mapping the keyword tier returns has the
    input set as its key set. *)
Lemma for_each_dom rules results descs m :
  for_each rules results descs = Ok m →
  dom m = dom results ∪ list_to_set descs.
Proof.
  revert results. induction descs as [|d descs IH]; intros results; cbn.
  - intros [= ->]. set_solver.
  - unfold categorize_one at 1.
    destruct (Py.items rules) as [items|]; [|done]. cbn.
    destruct (first_category (lower d) items) as [matched|]; [|done]. cbn.
    intros H. apply IH in H. rewrite H, dom_insert_L. set_solver.
Qed.

Lemma keyword_categorize_inv env self D w w' m :
  categorize env self D w = (w', Ok m) →
  dom m = D ∧ lists w' = lists w ∧ requests w' = requests w.
Proof.
  unfold categorize. rewrite bind_run. unfold Eff.lift.
  destruct (for_each (keyword_rules self) ∅ (set_order env D)) as [m'|] eqn:E;
    [|done].
  rewrite bind_run, emit_run. intros [= <- <-].
  rewrite logged_lists, logged_requests. split; [|done].
  apply for_each_dom in E. rewrite E, dom_empty_L, (left_id_L ∅ (∪)).
  apply set_eq. intros d. rewrite elem_of_list_to_set. apply set_order_elem.
Qed.

End KeywordFacts.

(** ** The model tier *)

Module ModelFacts.
Import OpenAICategorizer ModelSpec EffFacts KeywordFacts.

(** *** Batches *)

Lemma slices_concat (step : nat) (l : list string) (m : nat) :
  length l ≤ m * step →
  concat ((λ k, take step (drop (k * step) l)) <$> seq 0 m) = l.
Proof.
  revert l. induction m as [|m IH]; intros l Hl.
  - destruct l; [done|]. cbn in Hl. lia.
  - rewrite <- cons_seq, <- fmap_S_seq. cbn [fmap list_fmap concat].
    rewrite <- list_fmap_compose.
    rewrite (list_fmap_ext _ (λ k, take step (drop (k * step) (drop step l))) (seq 0 m)).
    + rewrite IH by (rewrite length_drop; lia). apply take_drop.
    + intros _ k _. cbn. by rewrite drop_drop.
Qed.

Lemma range_count (n step : nat) :
  0 < step → n ≤ (n + step - 1) `div` step * step.
Proof.
  intros Hs.
  pose proof (Nat.div_mod_eq (n + step - 1) step) as H.
  pose proof (Nat.mod_upper_bound (n + step - 1) step). nia.
Qed.

Lemma range_elem (n step i : nat) :
  0 < step → i ∈ range n step → i < n.
Proof.
  intros Hs (k & -> & Hk)%list_elem_of_fmap.
  apply elem_of_seq in Hk as [_ Hk]. cbn in Hk.
  pose proof (Nat.div_mod_eq (n + step - 1) step) as H.
  pose proof (Nat.mod_upper_bound (n + step - 1) step). nia.
Qed.

(** The batches, in order, are the description list cut in pieces. *)
Lemma batches_concat l : concat (batches l) = l.
Proof.
  unfold batches, range, slice. rewrite <- list_fmap_compose.
  apply slices_concat, range_count. unfold batch_size. lia.
Qed.

Lemma batches_sizes l b :
  b ∈ batches l → 1 ≤ length b ≤ batch_size.
Proof.
  unfold batches. intros (i & -> & Hi)%list_elem_of_fmap.
  apply range_elem in Hi; [|unfold batch_size; lia].
  unfold slice. rewrite length_take, length_drop. unfold batch_size in *. lia.
Qed.

Lemma batches_length l :
  length (batches l) = (length l + batch_size - 1) `div` batch_size.
Proof. unfold batches, range. by rewrite !length_fmap, length_seq. Qed.

Lemma batches_nil : batches [] = [].
Proof. done. Qed.

(** *** What the answers leave in [results] *)

Lemma record_entries_lookup results es d c :
  (record_entries results es).1 !! d = Some c →
  results !! d = Some c ∨ Object (Some d) (Some c) ∈ es.
Proof.
  revert results. induction es as [|e es IH]; intros results; [by left|].
  destruct e as [[d'|] [c'|]|]; cbn [record_entries]; try done.
  - intros [H|H]%IH; [|right; by right].
    destruct (decide (d' = d)) as [->|Hne].
    + rewrite lookup_insert_eq in H. injection H as ->. right. by left.
    + rewrite lookup_insert_ne in H by done. by left.
  - intros [H|H]%IH; [by left|right; by right].
  - intros [H|H]%IH; [by left|right; by right].
  - intros [H|H]%IH; [by left|right; by right].
  - by left.
Qed.

Lemma record_entries_keeps results es d :
  is_Some (results !! d) → is_Some ((record_entries results es).1 !! d).
Proof.
  revert results. induction es as [|e es IH]; intros results; [done|].
  destruct e as [[d'|] [c'|]|]; cbn [record_entries]; try done; try apply IH.
  intros H. apply IH. rewrite lookup_insert. case_decide; [eauto|done].
Qed.

(** A complete pair is recorded, whatever its category, as long as no
    entry before it raises and no pair behind it names the description
    again. *)
Lemma record_entries_records results before d c behind :
  NotAnObject ∉ before →
  (∀ c', Object (Some d) (Some c') ∉ behind) →
  (record_entries results (before ++ Object (Some d) (Some c) :: behind)).1 !! d
  = Some c.
Proof.
  intros Hb Ha. revert results.
  induction before as [|e before IH]; intros results.
  - cbn [app record_entries].
    destruct ((record_entries (<[d:=c]> results) behind).1 !! d) as [c'|] eqn:E.
    + apply record_entries_lookup in E as [E|E].
      * by rewrite lookup_insert_eq in E.
      * by apply Ha in E.
    + pose proof (record_entries_keeps (<[d:=c]> results) behind d) as [? H].
      { rewrite lookup_insert_eq. eauto. }
      congruence.
  - apply not_elem_of_cons in Hb as [Hne Hb].
    destruct e as [[d'|] [c'|]|]; cbn [app record_entries]; try done; by apply IH.
Qed.

Lemma absorb_lookup results r d c :
  absorb results r !! d = Some c →
  results !! d = Some c
  ∨ ∃ es, r = Payload (Some es) ∧ Object (Some d) (Some c) ∈ es.
Proof.
  destruct r as [| |[es|]]; cbn; try (by left).
  intros [H|H]%record_entries_lookup; [by left|]. right. eauto.
Qed.

Lemma record_batches_lookup cl mk n results bs d c :
  record_batches cl mk n results bs !! d = Some c →
  results !! d = Some c
  ∨ ∃ k b, bs !! k = Some b ∧ names_at cl (n + k) (mk b) d c.
Proof.
  revert n results. induction bs as [|b bs IH]; intros n results; [by left|].
  cbn [record_batches]. intros [H|(k & b' & Hk & Hn)]%IH.
  - apply absorb_lookup in H as [H|(es & Hes & Hin)]; [by left|].
    right. exists 0, b. split; [done|]. exists es. by rewrite Nat.add_0_r.
  - right. exists (S k), b'. split; [done|].
    by replace (n + S k) with (S n + k) by lia.
Qed.

Lemma absorb_keeps results r d :
  is_Some (results !! d) → is_Some (absorb results r !! d).
Proof.
  destruct r as [| |es]; cbn; [done|done|]. apply record_entries_keeps.
Qed.

Lemma record_batches_keeps cl mk n results bs d c :
  results !! d = Some c →
  (∀ j b c', bs !! j = Some b → ¬ names_at cl (n + j) (mk b) d c') →
  record_batches cl mk n results bs !! d = Some c.
Proof.
  revert n results. induction bs as [|b bs IH]; intros n results Hd Hno; [done|].
  cbn [record_batches]. apply IH.
  - destruct (absorb_keeps results (cl n (mk b)) d) as [c' Hc']; [eauto|].
    rewrite Hc'. apply absorb_lookup in Hc' as [Hc'|(es & Hes & Hin)];
      [congruence|].
    destruct (Hno 0 b c' eq_refl). exists es. by rewrite Nat.add_0_r.
  - intros j b' c' Hj. replace (S n + j) with (n + S j) by lia. by apply Hno.
Qed.

(** Whatever the answers to the batches before it were, a complete pair
    in the answer to a batch is in [results] at the end of the loop, when
    nothing raises before it in its payload and nothing names its
    description again. *)
Lemma record_batches_records cl mk n results bs k b before d c behind :
  bs !! k = Some b →
  cl (n + k) (mk b) = Payload (Some (before ++ Object (Some d) (Some c) :: behind)) →
  NotAnObject ∉ before →
  (∀ c', Object (Some d) (Some c') ∉ behind) →
  (∀ j b' c', k < j → bs !! j = Some b' → ¬ names_at cl (n + j) (mk b') d c') →
  record_batches cl mk n results bs !! d = Some c.
Proof.
  revert n results k. induction bs as [|b0 bs IH]; intros n results k Hk; [done|].
  destruct k as [|k]; cbn [record_batches].
  - injection Hk as ->. rewrite Nat.add_0_r. intros -> Hb Ha Hlater.
    apply record_batches_keeps.
    + cbn. by apply record_entries_records.
    + intros j b' c' Hj. replace (S n + j) with (n + S j) by lia.
      apply Hlater; [lia|done].
  - replace (n + S k) with (S n + k) by lia. intros Hans Hb Ha Hlater.
    eapply IH; try done.
    intros j b' c' Hlt Hj. replace (S n + j) with (n + S j) by lia.
    apply Hlater; [lia|done].
Qed.

Lemma record_batches_errors cl mk n results bs :
  (∀ k rq, cl k rq = RequestError) →
  record_batches cl mk n results bs = results.
Proof.
  intros H. revert n results. induction bs as [|b bs IH]; intros n results; [done|].
  cbn [record_batches]. by rewrite H, IH.
Qed.

Lemma fill_lookup results descs d :
  fill results descs !! d
  = match results !! d with
    | Some c => Some c
    | None => if decide (d ∈ descs) then Some "Uncategorized" else None
    end.
Proof.
  unfold fill. revert results.
  induction descs as [|d' descs IH]; intros results; cbn [foldl].
  - rewrite decide_False by apply not_elem_of_nil. by destruct (results !! d).
  - rewrite IH. unfold getitem_default.
    destruct (results !! d') as [c'|] eqn:E'; cbn [fst].
    + destruct (results !! d) as [c0|] eqn:E; [done|].
      destruct (decide (d ∈ descs)) as [Hin|Hnin].
      * by rewrite decide_True by (by right).
      * rewrite decide_False; [done|].
        intros [->|?]%elem_of_cons; [congruence|done].
    + destruct (decide (d = d')) as [->|Hne].
      * rewrite lookup_insert_eq, E'. by rewrite decide_True by (by left).
      * rewrite lookup_insert_ne by done.
        destruct (results !! d) as [c0|]; [done|].
        destruct (decide (d ∈ descs)) as [Hin|Hnin].
        -- by rewrite decide_True by (by right).
        -- by rewrite decide_False by (by intros [?|?]%elem_of_cons).
Qed.

(** *** Running the tier *)

Lemma process_batch_run env self l results i w :
  ∃ w',
    process_batch env self l results i w
    = (w', Ok (absorb results
                 (client self (length (requests w)) (request_for self w (slice l i)))))
    ∧ lists w' = lists w
    ∧ requests w' = requests w ++ [request_for self w (slice l i)].
Proof.
  unfold process_batch. rewrite bind_run. unfold Eff.read_list.
  rewrite bind_run. unfold Eff.send. fold (request_for self w (slice l i)).
  destruct (client self (length (requests w)) (request_for self w (slice l i)))
    as [| |es]; cbn [absorb].
  - rewrite bind_run, emit_run, ret_run. eexists. split; [done|].
    by rewrite logged_lists, logged_requests.
  - rewrite bind_run, emit_run, ret_run. eexists. split; [done|].
    by rewrite logged_lists, logged_requests.
  - destruct (record_entries results (default [] es)) as [results' [[]|e]];
      cbn [fst].
    + rewrite ret_run. eexists. by split.
    + rewrite bind_run, emit_run, ret_run. eexists. split; [done|].
      by rewrite logged_lists, logged_requests.
Qed.

Lemma request_for_lists self w w' b :
  lists w' = lists w → request_for self w' b = request_for self w b.
Proof. unfold request_for. by intros ->. Qed.

Lemma record_batches_ext cl mk mk' n results bs :
  (∀ b, mk b = mk' b) →
  record_batches cl mk n results bs = record_batches cl mk' n results bs.
Proof.
  intros H. revert n results. induction bs as [|b bs IH]; intros n results; [done|].
  cbn [record_batches]. by rewrite H, IH.
Qed.

Lemma for_batches_run env self l results starts w :
  ∃ w',
    for_batches env self l results starts w
    = (w', Ok (record_batches (client self) (request_for self w)
                 (length (requests w)) results (slice l <$> starts)))
    ∧ lists w' = lists w
    ∧ requests w' = requests w ++ (request_for self w <$> (slice l <$> starts)).
Proof.
  revert results w. induction starts as [|i starts IH]; intros results w.
  - exists w. cbn. by rewrite app_nil_r.
  - cbn [for_batches]. rewrite bind_run.
    destruct (process_batch_run env self l results i w) as (w1 & -> & Hl & Hr).
    destruct (IH (absorb results (client self (length (requests w))
                    (request_for self w (slice l i)))) w1) as (w2 & -> & Hl2 & Hr2).
    exists w2. split; [|split].
    + cbn [fmap list_fmap record_batches]. rewrite Hr, length_app. cbn [length].
      replace (length (requests w) + 1) with (S (length (requests w))) by lia.
      do 2 f_equal. apply record_batches_ext. intros b.
      by apply request_for_lists.
    + congruence.
    + rewrite Hr2, Hr, <- app_assoc. cbn. do 2 f_equal.
      apply list_fmap_ext. intros _ b _. by apply request_for_lists.
Qed.

Lemma log_results_run env results descs w :
  ∃ w',
    log_results env results descs w = (w', Ok (fill results descs))
    ∧ lists w' = lists w ∧ requests w' = requests w.
Proof.
  revert results w. induction descs as [|d descs IH]; intros results w.
  - by exists w.
  - cbn [log_results]. unfold fill. cbn [foldl].
    destruct (getitem_default results d) as [results' c]. cbn [fst].
    rewrite bind_run, emit_run.
    destruct (IH results' (logged env OpenAILogger INFO (ResultLine d c) w))
      as (w' & -> & Hl & Hr).
    exists w'. split; [done|]. by rewrite Hl, Hr, logged_lists, logged_requests.
Qed.

Lemma model_categorize_empty env self w : categorize env self ∅ w = (w, Ok ∅).
Proof. unfold categorize. by rewrite bool_decide_eq_true_2. Qed.

Lemma model_categorize_run env self X w :
  X ≠ ∅ →
  ∃ w',
    categorize env self X w = (w', Ok (returned env self X w))
    ∧ lists w' = lists w
    ∧ requests w' = requests w ++ (request_for self w <$> batches (set_order env X)).
Proof.
  intros HX. unfold categorize, returned, recorded.
  rewrite bool_decide_eq_false_2 by done. rewrite bind_run.
  destruct (for_batches_run env self (set_order env X) ∅
              (range (length (set_order env X)) batch_size) w)
    as (w1 & -> & Hl1 & Hr1).
  fold (batches (set_order env X)) in *.
  rewrite bind_run.
  destruct (Eff.isEnabledFor env OpenAILogger INFO).
  - rewrite bind_run, emit_run, bind_run.
    destruct (log_results_run env
                (record_batches (client self) (request_for self w)
                   (length (requests w)) ∅ (batches (set_order env X)))
                (set_order env X) (logged env OpenAILogger INFO ResultsHeader w1))
      as (w2 & -> & Hl2 & Hr2).
    rewrite bind_run, emit_run, ret_run, bind_run, emit_run, ret_run.
    eexists. split; [done|].
    by rewrite !logged_lists, !logged_requests, Hl2, Hr2,
               logged_lists, logged_requests.
  - rewrite ret_run, bind_run, emit_run, ret_run.
    eexists. split; [done|]. by rewrite logged_lists, logged_requests.
Qed.

End ModelFacts.

(** ** Construction *)

Module InitFacts.
Import EffFacts InitSpec.

Lemma lists_after_idemp r w w' :
  lists w' = lists_after r w → lists_after r w' = lists w'.
Proof.
  unfold lists_after. intros ->.
  destruct (bool_decide ("Uncategorized" ∈ default [] (lists w !! r))) eqn:E.
  - by rewrite E.
  - rewrite lookup_insert_eq. cbn [default].
    rewrite bool_decide_eq_true_2; [done|].
    apply elem_of_app. right. by left.
Qed.

Lemma load_run env lg l msg (path : string) w :
  ∃ w', Eff.try_except (Eff.lift (Config.load env (Config.resolve env path)))
          (λ _, Eff.emit env lg l msg;; mret (JObj [])) w
        = (w', Ok (loaded_rules env path))
        ∧ lists w' = lists w ∧ requests w' = requests w.
Proof.
  unfold Eff.try_except, Eff.lift, loaded_rules.
  destruct (Config.load env (Config.resolve env path)) as [v|e].
  - by exists w.
  - rewrite bind_run, emit_run, ret_run. eexists. split; [done|].
    by rewrite logged_lists, logged_requests.
Qed.

Lemma keyword_init_run env r path w :
  ∃ w', KeywordCategorizer.__init__ env r path w
        = (w', Ok (KeywordCategorizer.Make r (loaded_rules env path)))
        ∧ lists w' = lists w ∧ requests w' = requests w.
Proof.
  unfold KeywordCategorizer.__init__, KeywordCategorizer._load_keyword_rules.
  rewrite bind_run.
  destruct (load_run env KeywordLogger ERROR
              (KeywordRulesLoadFailed (Config.resolve env path)) path w)
    as (w' & -> & Hl & Hr).
  rewrite ret_run. by exists w'.
Qed.

Lemma openai_init_run env r path w :
  ∃ w' res,
    OpenAICategorizer.__init__ env r path w = (w', res)
    ∧ lists w' = lists_after r w
    ∧ requests w' = requests w
    ∧ ∀ self, res = Ok self →
        OpenAICategorizer.categories self = r
        ∧ OpenAICategorizer.schema_enum self = r.
Proof.
  unfold OpenAICategorizer.__init__, OpenAICategorizer._load_settings.
  rewrite bind_run. unfold Eff.read_list at 1. rewrite bind_run.
  set (w1 := (if bool_decide ("Uncategorized" ∈ default [] (lists w !! r))
              then mret () else Eff.append r "Uncategorized") w).
  assert (∃ w1', w1 = (w1', Ok ()) ∧ lists w1' = lists_after r w
                 ∧ requests w1' = requests w) as (w1' & -> & Hl1 & Hr1).
  { unfold w1, lists_after.
    destruct (bool_decide ("Uncategorized" ∈ default [] (lists w !! r))).
    - by exists w.
    - unfold Eff.append. eexists. by split. }
  rewrite bind_run.
  destruct (load_run env OpenAILogger WARNING
              (AISettingsLoadFailed (Config.resolve env path)) path w1')
    as (w2 & -> & Hl2 & Hr2).
  rewrite bind_run. unfold Eff.lift at 1.
  destruct (_ ≫= _) as [model|e]; [|by eexists _, _; repeat split; congruence].
  rewrite bind_run. unfold Eff.lift at 1.
  destruct (_ ≫= _) as [api_key|e]; [|by eexists _, _; repeat split; congruence].
  rewrite bind_run. unfold Eff.lift at 1.
  destruct (OpenAI env api_key) as [cl|e];
    [|by eexists _, _; repeat split; congruence].
  rewrite bind_run. unfold Eff.lift at 1.
  destruct (Py.get _ "category_hints" _) as [hints|e];
    [|by eexists _, _; repeat split; congruence].
  rewrite bind_run. unfold Eff.read_list at 1.
  rewrite bind_run. unfold Eff.lift at 1.
  destruct (OpenAICategorizer._format_hints _ _) as [formatted|e];
    [|by eexists _, _; repeat split; congruence].
  rewrite ret_run. eexists _, _. split; [done|].
  split; [congruence|]. split; [congruence|]. by intros self [= <-].
Qed.

Lemma main_init_run env r keyword_rules_file ai_settings_file w :
  ∃ w' res,
    MainCategorizer.__init__ env r keyword_rules_file ai_settings_file w = (w', res)
    ∧ lists w' = lists_after r w
    ∧ requests w' = requests w
    ∧ ∀ self, res = Ok self →
        MainCategorizer.categories self = r
        ∧ KeywordCategorizer.categories (MainCategorizer.keyword_categorizer self) = r
        ∧ KeywordCategorizer.keyword_rules (MainCategorizer.keyword_categorizer self)
          = loaded_rules env keyword_rules_file
        ∧ OpenAICategorizer.categories (MainCategorizer.openai_categorizer self) = r
        ∧ OpenAICategorizer.schema_enum (MainCategorizer.openai_categorizer self) = r.
Proof.
  unfold MainCategorizer.__init__. rewrite bind_run.
  destruct (keyword_init_run env r keyword_rules_file w) as (w1 & -> & Hl1 & Hr1).
  rewrite bind_run.
  destruct (openai_init_run env r ai_settings_file w1)
    as (w2 & res & -> & Hl2 & Hr2 & Hself).
  assert (lists_after r w1 = lists_after r w) as Hla
    by (unfold lists_after; by rewrite Hl1).
  destruct res as [oc|e].
  - rewrite ret_run. eexists _, _. split; [done|].
    split; [congruence|]. split; [congruence|].
    intros self [= <-]. cbn. destruct (Hself oc eq_refl) as [-> ->]. done.
  - eexists _, _. split; [done|]. split; [congruence|]. split; [congruence|]. done.
Qed.

End InitFacts.

(** ** The orchestrator *)

Module MainFacts.
Import MainCategorizer ModelSpec MainSpec EffFacts KeywordFacts ModelFacts.

Lemma elem_of_uncategorized (kr : gmap string string) d :
  d ∈ uncategorized kr ↔ kr !! d = Some "Uncategorized".
Proof.
  unfold uncategorized. rewrite elem_of_dom. split.
  - intros [c Hc]. apply map_lookup_filter_Some in Hc as [Hc Hu].
    cbn in Hu. by subst.
  - intros H. exists "Uncategorized". by apply map_lookup_filter_Some.
Qed.

Lemma tail_run env (m : gmap string string) (u : gset string) n w :
  ∃ w',
    (Eff.emit env MainLogger INFO
       (MainCompleted (KeywordCategorizer.count_categorized m) n);;
     Eff.emit env MainLogger INFO (MainUncategorized u);;
     mret m) w = (w', Ok m)
    ∧ lists w' = lists w ∧ requests w' = requests w.
Proof.
  rewrite bind_run, emit_run, bind_run, emit_run, ret_run.
  eexists. split; [done|]. by rewrite !logged_lists, !logged_requests.
Qed.

(** With a second tier that raises, the keyword results are returned. *)
Lemma categorize_with_raise env keyword second_tier D w w1 kr :
  KeywordCategorizer.categorize env keyword D w = (w1, Ok kr) →
  (∀ X w0, ∃ w0' e, second_tier X w0 = (w0', Raise e)) →
  ∃ w', categorize_with env keyword second_tier D w = (w', Ok kr).
Proof.
  intros Hk Hraise. unfold categorize_with. rewrite bind_run, Hk, bind_run.
  destruct (bool_decide (uncategorized kr = ∅)).
  - rewrite ret_run.
    destruct (tail_run env kr (uncategorized kr) (size D) w1) as (w' & -> & _).
    by exists w'.
  - unfold Eff.try_except. rewrite bind_run.
    destruct (Hraise (uncategorized kr) w1) as (w2 & e & ->).
    rewrite bind_run, emit_run, ret_run.
    destruct (tail_run env kr (uncategorized kr) (size D)
                (logged env MainLogger ERROR (OpenAIFailed e) w2)) as (w' & -> & _).
    by exists w'.
Qed.

Lemma main_categorize_run env self D w w1 kr :
  KeywordCategorizer.categorize env (keyword_categorizer self) D w = (w1, Ok kr) →
  ∃ w',
    categorize env self D w = (w', Ok (merged env self kr w1))
    ∧ lists w' = lists w
    ∧ requests w' = requests w ++ sent env self kr w1.
Proof.
  intros Hk. pose proof (keyword_categorize_inv _ _ _ _ _ _ Hk) as (_ & Hl1 & Hr1).
  unfold categorize, categorize_with, merged, sent.
  rewrite bind_run, Hk, bind_run.
  destruct (bool_decide (uncategorized kr = ∅)) eqn:E.
  - rewrite ret_run. apply bool_decide_eq_true in E.
    destruct (tail_run env kr (uncategorized kr) (size D) w1)
      as (w' & -> & Hl & Hr).
    exists w'. split; [done|].
    rewrite E, (proj2 (set_order_nil env ∅) eq_refl), batches_nil.
    cbn. rewrite app_nil_r. split; congruence.
  - apply bool_decide_eq_false in E.
    unfold Eff.try_except. rewrite bind_run.
    destruct (ModelFacts.model_categorize_run env (openai_categorizer self)
                (uncategorized kr) w1 E) as (w2 & -> & Hl2 & Hr2).
    rewrite ret_run.
    destruct (tail_run env
                (returned env (openai_categorizer self) (uncategorized kr) w1 ∪ kr)
                (uncategorized kr) (size D) w2) as (w' & -> & Hl & Hr).
    exists w'. split; [done|]. split; congruence.
Qed.

Lemma main_categorize_raise env self D w w1 e :
  KeywordCategorizer.categorize env (keyword_categorizer self) D w = (w1, Raise e) →
  categorize env self D w = (w1, Raise e).
Proof.
  intros Hk. unfold categorize, categorize_with. by rewrite bind_run, Hk.
Qed.

Lemma returned_lookup env oc X w d c :
  returned env oc X w !! d = Some c →
  (d ∈ X ∧ c = "Uncategorized")
  ∨ ∃ k b, batches (set_order env X) !! k = Some b
           ∧ names_at (OpenAICategorizer.client oc) (length (requests w) + k)
               (request_for oc w b) d c.
Proof.
  unfold returned, recorded.
  destruct (Eff.isEnabledFor env OpenAILogger INFO).
  - rewrite fill_lookup.
    destruct (record_batches _ _ _ _ _ !! d) as [c'|] eqn:E.
    + intros [= ->]. apply record_batches_lookup in E as [E|E]; [done|by right].
    + case_decide as Hin; [|done]. intros [= <-]. left.
      by rewrite set_order_elem in Hin.
  - intros [E|E]%record_batches_lookup; [done|by right].
Qed.

Lemma elem_of_batches (l : list string) k b d :
  batches l !! k = Some b → d ∈ b → d ∈ l.
Proof.
  intros Hk Hd. rewrite <- (batches_concat l).
  apply list_elem_of_In, in_concat. exists b.
  split; apply list_elem_of_In; [by eapply list_elem_of_lookup_2|done].
Qed.

End MainFacts.

(** * The claims *)

Import EffSpec KeywordSpec ModelSpec MainSpec InitSpec.

(** C4. The model tier cuts the set it is given into ordered batches of at
    most 50 descriptions: the descriptions of the requests it sends, one
    request after the other, are the descriptions of the set in their
    iteration order, each of them once, so the batches cover the set and no
    description is in two batches; no batch is empty, also when the size is
    1 or a multiple of 50, and there are [ceil(size / 50)] of them; for the
    empty set nothing is sent and the empty mapping is returned. *)
Theorem model_tier_batches env self (X : gset string) w :
  ∃ w' m new,
    OpenAICategorizer.categorize env self X w = (w', Ok m)
    ∧ requests w' = requests w ++ new
    ∧ concat (rq_descriptions <$> new) = set_order env X
    ∧ (∀ d, d ∈ concat (rq_descriptions <$> new) ↔ d ∈ X)
    ∧ NoDup (concat (rq_descriptions <$> new))
    ∧ (∀ rq, rq ∈ new → 1 ≤ length (rq_descriptions rq) ≤ 50)
    ∧ length new = (size X + 49) `div` 50
    ∧ (X = ∅ → w' = w ∧ m = ∅ ∧ new = []).
Proof.
  assert (∀ l, rq_descriptions <$> (request_for self w <$> batches l) = batches l)
    as Hdescs.
  { intros l. rewrite <- list_fmap_compose. apply list_fmap_id. }
  destruct (decide (X = ∅)) as [->|HX].
  - exists w, ∅, []. rewrite ModelFacts.model_categorize_empty, app_nil_r.
    assert (set_order env ∅ = []) as Hnil by by apply KeywordFacts.set_order_nil.
    rewrite Hnil, size_empty. cbn.
    split; [done|]. split; [done|]. split; [done|].
    split; [by split; [intros ?%elem_of_nil|intros ?%not_elem_of_empty]|].
    split; [constructor|].
    split; [by intros rq ?%elem_of_nil|]. done.
  - destruct (ModelFacts.model_categorize_run env self X w HX) as (w' & Hrun & _ & Hreq).
    exists w', (returned env self X w),
      (request_for self w <$> batches (set_order env X)).
    rewrite Hdescs, ModelFacts.batches_concat.
    split; [done|]. split; [done|]. split; [done|].
    split; [apply KeywordFacts.set_order_elem|].
    split; [apply KeywordFacts.set_order_NoDup|].
    split; [|split; [|done]].
    + intros rq (b & -> & Hb)%list_elem_of_fmap. cbn.
      by apply ModelFacts.batches_sizes in Hb.
    + rewrite length_fmap, ModelFacts.batches_length,
        KeywordFacts.set_order_length.
      unfold OpenAICategorizer.batch_size. f_equal. lia.
Qed.

(** C5. On rules of the declared shape the keyword tier returns, and for
    every description of the input it assigns exactly the category of the
    first-match relation: it lowercases the description and the keywords,
    tests the keywords as substrings, takes the categories in the order of
    the rules, assigns the first one with a keyword that occurs, and
    assigns "Uncategorized" when no category has one. *)
Theorem keyword_first_match env cats rules (D : gset string) w d :
  d ∈ D →
  ∃ w' kr,
    KeywordCategorizer.categorize env
      (KeywordCategorizer.Make cats (of_rules rules)) D w = (w', Ok kr)
    ∧ dom kr = D
    ∧ ∀ c, kr !! d = Some c ↔ assigned rules d c.
Proof.
  intros Hd. rewrite KeywordFacts.keyword_categorize_typed.
  eexists _, _. split; [done|]. split.
  - apply set_eq. intros d'. rewrite elem_of_dom, KeywordFacts.keyword_map_lookup.
    case_decide as Hin; split; [done|eauto|by intros [? ?]|done].
  - intros c. rewrite KeywordFacts.keyword_map_lookup, decide_True by done.
    rewrite KeywordFacts.assigned_assign. split; [by intros [= <-]|by intros ->].
Qed.

Lemma keyword_first_match_witness :
  ∃ w' kr,
    KeywordCategorizer.categorize (Examples.shop_env Examples.failing 20)
      (KeywordCategorizer.Make 0 (of_rules Examples.shop_rules))
      Examples.descriptions Examples.start = (w', Ok kr)
    ∧ dom kr = Examples.descriptions
    ∧ ∀ c, kr !! "MIGROS Zurich" = Some c
           ↔ assigned Examples.shop_rules "MIGROS Zurich" c.
Proof.
  apply (keyword_first_match (Examples.shop_env Examples.failing 20) 0
           Examples.shop_rules Examples.descriptions Examples.start "MIGROS Zurich").
  vm_compute. reflexivity.
Defined.

(** C3. When the keyword tier has produced its mapping, a model tier that
    fails leaves it as the result: if every request of the model tier
    raises, or if the invocation of the second tier raises as a whole,
    [categorize] returns, and returns exactly the mapping of the keyword
    tier. A failing request does not stop the loop over the batches:
    whatever the client answers, one request is sent for each batch of the
    uncategorized descriptions, and a pair in the answer to a batch reaches
    the final mapping whatever the answers to the batches before it were
    (when nothing raises before the pair in its payload and no later pair
    names its description again). *)
Theorem fallback_on_model_failure env self (D : gset string) w w1 kr :
  KeywordCategorizer.categorize env (MainCategorizer.keyword_categorizer self) D w
  = (w1, Ok kr) →
  ((∀ n rq,
      OpenAICategorizer.client (MainCategorizer.openai_categorizer self) n rq
      = RequestError) →
   ∃ w', MainCategorizer.categorize env self D w = (w', Ok kr)
         ∧ requests w' = requests w ++ sent env self kr w1)
  ∧ (∀ second_tier,
       (∀ X w0, ∃ w0' e, second_tier X w0 = (w0', Raise e)) →
       ∃ w', MainCategorizer.categorize_with env
               (MainCategorizer.keyword_categorizer self) second_tier D w
             = (w', Ok kr))
  ∧ ∃ w' m,
      MainCategorizer.categorize env self D w = (w', Ok m)
      ∧ requests w' = requests w ++ sent env self kr w1
      ∧ length (sent env self kr w1)
        = (size (MainCategorizer.uncategorized kr) + 49) `div` 50
      ∧ ∀ k b before d c behind,
          batches (set_order env (MainCategorizer.uncategorized kr)) !! k = Some b →
          OpenAICategorizer.client (MainCategorizer.openai_categorizer self)
            (length (requests w1) + k)
            (request_for (MainCategorizer.openai_categorizer self) w1 b)
          = Payload (Some (before ++ Object (Some d) (Some c) :: behind)) →
          NotAnObject ∉ before →
          (∀ c', Object (Some d) (Some c') ∉ behind) →
          (∀ j b' c', k < j →
             batches (set_order env (MainCategorizer.uncategorized kr)) !! j = Some b' →
             ¬ names_at (OpenAICategorizer.client (MainCategorizer.openai_categorizer self))
                 (length (requests w1) + j)
                 (request_for (MainCategorizer.openai_categorizer self) w1 b') d c') →
          m !! d = Some c.
Proof.
  intros Hk.
  destruct (MainFacts.main_categorize_run env self D w w1 kr Hk) as (w' & Hrun & _ & Hreq).
  split; [|split].
  - intros Hfail. exists w'. split; [|done]. rewrite Hrun. do 2 f_equal.
    unfold merged. case_bool_decide as Hu; [done|].
    apply map_eq. intros d. unfold returned, recorded.
    rewrite ModelFacts.record_batches_errors by done.
    destruct (Eff.isEnabledFor env OpenAILogger INFO).
    + rewrite lookup_union, ModelFacts.fill_lookup, lookup_empty.
      case_decide as Hin.
      * apply KeywordFacts.set_order_elem, MainFacts.elem_of_uncategorized in Hin.
        by rewrite Hin.
      * by rewrite (left_id_L None (∪)).
    + by rewrite (left_id_L ∅ (∪)).
  - intros second_tier Hraise.
    by apply (MainFacts.categorize_with_raise env _ second_tier D w w1 kr).
  - exists w', (merged env self kr w1). split; [done|]. split; [done|]. split.
    + unfold sent. rewrite length_fmap, ModelFacts.batches_length,
        KeywordFacts.set_order_length.
      unfold OpenAICategorizer.batch_size. f_equal. lia.
    + intros k b before d c behind Hb Hans Hbefore Hbehind Hlater.
      unfold merged. case_bool_decide as Hu.
      { rewrite Hu, (proj2 (KeywordFacts.set_order_nil env ∅) eq_refl) in Hb.
        done. }
      apply lookup_union_Some_raw. left. unfold returned.
      assert (recorded env (MainCategorizer.openai_categorizer self)
                (MainCategorizer.uncategorized kr) w1 !! d = Some c) as Hrec
        by (by eapply ModelFacts.record_batches_records).
      destruct (Eff.isEnabledFor env OpenAILogger INFO); [|done].
      by rewrite ModelFacts.fill_lookup, Hrec.
Qed.

Lemma fallback_on_model_failure_witness :
  ∃ w', MainCategorizer.categorize (Examples.shop_env Examples.failing 20)
          (Examples.constructed (Examples.shop_env Examples.failing 20))
          Examples.descriptions
          (Examples.world_after (Examples.shop_env Examples.failing 20))
        = (w', Ok {[ "MIGROS Zurich" := "Groceries"; "SBB Ticket" := "Transport";
                     "Unknown Shop" := "Uncategorized" ]}).
Proof.
  destruct (fallback_on_model_failure (Examples.shop_env Examples.failing 20)
              (Examples.constructed (Examples.shop_env Examples.failing 20))
              Examples.descriptions
              (Examples.world_after (Examples.shop_env Examples.failing 20))
              (KeywordCategorizer.categorize (Examples.shop_env Examples.failing 20)
                 (MainCategorizer.keyword_categorizer
                    (Examples.constructed (Examples.shop_env Examples.failing 20)))
                 Examples.descriptions
                 (Examples.world_after (Examples.shop_env Examples.failing 20))).1
              {[ "MIGROS Zurich" := "Groceries"; "SBB Ticket" := "Transport";
                 "Unknown Shop" := "Uncategorized" ]})
    as [Hfail _].
  - vm_compute. reflexivity.
  - destruct Hfail as (w' & Hrun & _); [reflexivity|]. exists w'. exact Hrun.
Defined.

(** C9. Constructing the orchestrator appends "Uncategorized" to the list
    object the caller passed, when it is not in it: whether the
    construction returns or raises, the list object holds the sentinel
    afterwards, no other list object is touched and nothing is sent; the
    files are only read. When the construction returns, the orchestrator,
    the keyword tier, the model tier and the schema of the model tier all
    hold the caller's list object. *)
Theorem construction_appends_sentinel env r keyword_rules_file ai_settings_file w :
  ∃ w' res,
    MainCategorizer.__init__ env r keyword_rules_file ai_settings_file w = (w', res)
    ∧ ("Uncategorized" ∈ default [] (lists w !! r) → lists w' = lists w)
    ∧ ("Uncategorized" ∉ default [] (lists w !! r) →
       lists w' = <[r := default [] (lists w !! r) ++ ["Uncategorized"]]> (lists w))
    ∧ "Uncategorized" ∈ default [] (lists w' !! r)
    ∧ (∀ r', r' ≠ r → lists w' !! r' = lists w !! r')
    ∧ requests w' = requests w
    ∧ ∀ self, res = Ok self →
        MainCategorizer.categories self = r
        ∧ KeywordCategorizer.categories (MainCategorizer.keyword_categorizer self) = r
        ∧ OpenAICategorizer.categories (MainCategorizer.openai_categorizer self) = r
        ∧ OpenAICategorizer.schema_enum (MainCategorizer.openai_categorizer self) = r.
Proof.
  destruct (InitFacts.main_init_run env r keyword_rules_file ai_settings_file w)
    as (w' & res & Hrun & Hl & Hr & Hself).
  exists w', res. split; [done|]. rewrite Hl. unfold lists_after.
  split; [|split; [|split; [|split; [|split]]]].
  - intros Hin. by rewrite bool_decide_eq_true_2.
  - intros Hnin. by rewrite bool_decide_eq_false_2.
  - case_bool_decide as Hin; [done|]. rewrite lookup_insert_eq. cbn.
    apply elem_of_app. right. by left.
  - intros r' Hne. case_bool_decide; [done|]. by rewrite lookup_insert_ne.
  - done.
  - intros self Hres. destruct (Hself self Hres) as (? & ? & _ & ? & ?). done.
Qed.

(** C10. The key set of the mapping the model tier returns depends on the
    level of its logger. For the same set, the same client and the same
    world, the same requests are sent at both levels; with INFO enabled the
    returned mapping holds every requested description, those the answers
    left out with "Uncategorized"; with INFO disabled it holds what the
    answers recorded and nothing else, so a description no answer names is
    absent, and when every request fails the mapping is empty. *)
Theorem logger_level_changes_keys env self (X : gset string) w lv_on lv_off :
  lv_on OpenAILogger ≤ 20 →
  20 < lv_off OpenAILogger →
  ∃ w_on w_off m_on m_off,
    OpenAICategorizer.categorize (with_levels env lv_on) self X w = (w_on, Ok m_on)
    ∧ OpenAICategorizer.categorize (with_levels env lv_off) self X w = (w_off, Ok m_off)
    ∧ requests w_on = requests w_off
    ∧ dom m_on = dom m_off ∪ X
    ∧ (∀ d c, m_off !! d = Some c → m_on !! d = Some c)
    ∧ (∀ d, d ∈ X → m_off !! d = None → m_on !! d = Some "Uncategorized")
    ∧ (∀ d, (∀ c, ¬ names (OpenAICategorizer.client self) d c) → m_off !! d = None)
    ∧ ((∀ n rq, OpenAICategorizer.client self n rq = RequestError) →
       m_off = ∅ ∧ dom m_on = X).
Proof.
  intros Hon Hoff.
  assert (Eff.isEnabledFor (with_levels env lv_on) OpenAILogger INFO = true) as Eon
    by (by apply bool_decide_eq_true_2).
  assert (Eff.isEnabledFor (with_levels env lv_off) OpenAILogger INFO = false) as Eoff
    by (apply bool_decide_eq_false_2; cbn; lia).
  destruct (decide (X = ∅)) as [->|HX].
  { exists w, w, ∅, ∅. rewrite !ModelFacts.model_categorize_empty.
    split; [done|]. split; [done|]. split; [done|].
    split; [by rewrite dom_empty_L, (left_id_L ∅ (∪))|].
    split; [done|]. split; [by intros d ?%not_elem_of_empty|].
    split; [done|]. intros _. by rewrite dom_empty_L. }
  destruct (ModelFacts.model_categorize_run (with_levels env lv_on) self X w HX)
    as (w_on & Hrun_on & _ & Hreq_on).
  destruct (ModelFacts.model_categorize_run (with_levels env lv_off) self X w HX)
    as (w_off & Hrun_off & _ & Hreq_off).
  set (rec := recorded env self X w).
  assert (returned (with_levels env lv_on) self X w = fill rec (set_order env X)) as Hon'
    by (unfold returned; by rewrite Eon).
  assert (returned (with_levels env lv_off) self X w = rec) as Hoff'
    by (unfold returned; by rewrite Eoff).
  rewrite Hon' in Hrun_on. rewrite Hoff' in Hrun_off.
  assert (dom (fill rec (set_order env X)) = dom rec ∪ X) as Hdom.
  { apply set_eq. intros d.
    rewrite elem_of_union, !elem_of_dom, ModelFacts.fill_lookup.
    destruct (rec !! d) as [c|]; [split; eauto|].
    case_decide as Hin.
    - apply KeywordFacts.set_order_elem in Hin. split; eauto.
    - rewrite KeywordFacts.set_order_elem in Hin.
      split; [by intros [? ?]|]. intros [[? ?]|?]; done. }
  exists w_on, w_off, (fill rec (set_order env X)), rec.
  split; [done|]. split; [done|]. split; [by rewrite Hreq_on, Hreq_off|].
  split; [done|]. split; [|split; [|split]].
  - intros d c Hd. by rewrite ModelFacts.fill_lookup, Hd.
  - intros d Hin Hd. rewrite ModelFacts.fill_lookup, Hd.
    by rewrite decide_True by (by apply KeywordFacts.set_order_elem).
  - intros d Hno. apply eq_None_not_Some. intros [c Hc].
    apply ModelFacts.record_batches_lookup in Hc as [Hc|(k & b & _ & Hc)]; [done|].
    apply (Hno c). eexists _, _. exact Hc.
  - intros Hfail. assert (rec = ∅) as Hrec
      by (unfold rec, recorded; by rewrite ModelFacts.record_batches_errors).
    split; [done|]. by rewrite Hdom, Hrec, dom_empty_L, (left_id_L ∅ (∪)).
Qed.

Lemma logger_level_changes_keys_witness :
  ∃ w_on w_off m_on m_off,
    OpenAICategorizer.categorize
      (with_levels (Examples.shop_env Examples.failing 20) (λ _, 20))
      (MainCategorizer.openai_categorizer
         (Examples.constructed (Examples.shop_env Examples.failing 20)))
      {[ "Unknown Shop" ]} Examples.start = (w_on, Ok m_on)
    ∧ OpenAICategorizer.categorize
        (with_levels (Examples.shop_env Examples.failing 20) (λ _, 30))
        (MainCategorizer.openai_categorizer
           (Examples.constructed (Examples.shop_env Examples.failing 20)))
        {[ "Unknown Shop" ]} Examples.start = (w_off, Ok m_off)
    ∧ dom m_on = dom m_off ∪ {[ "Unknown Shop" ]}.
Proof.
  destruct (logger_level_changes_keys (Examples.shop_env Examples.failing 20)
              (MainCategorizer.openai_categorizer
                 (Examples.constructed (Examples.shop_env Examples.failing 20)))
              {[ "Unknown Shop" ]} Examples.start (λ _, 20) (λ _, 30))
    as (w_on & w_off & m_on & m_off & H1 & H2 & _ & H3 & _).
  - cbn. lia.
  - cbn. lia.
  - exists w_on, w_off, m_on, m_off.
    split; [exact H1|]. split; [exact H2|exact H3].
Defined.

Lemma cautious_faithful : faithful Examples.cautious.
Proof.
  intros n rq d c (es & Hes & Hin). unfold Examples.cautious in Hes.
  destruct (rq_enum rq) as [|c0 enum] eqn:E; injection Hes as <-.
  - by apply elem_of_nil in Hin.
  - apply list_elem_of_fmap in Hin as (d' & Heq & Hd'). injection Heq as -> ->.
    split; [done|]. rewrite ?E. by left.
Qed.

(** C1, refuted as stated: the answer of the service can name a description
    that was never asked about and a category outside the list, and both
    reach the final mapping. *)
Lemma totality_counterexample :
  ¬ Claims.total
      (Examples.shop_env (Examples.answers [Object (Some "Other") (Some "Bogus")]) 20)
      (Examples.constructed
         (Examples.shop_env (Examples.answers [Object (Some "Other") (Some "Bogus")]) 20))
      {[ "Unknown Shop" ]}
      (Examples.world_after
         (Examples.shop_env (Examples.answers [Object (Some "Other") (Some "Bogus")]) 20)).
Proof.
  intros (w' & m & Hrun & Hdom & _).
  assert (m = {[ "Other" := "Bogus"; "Unknown Shop" := "Uncategorized" ]}) as ->.
  { apply (f_equal snd) in Hrun. cbn [snd] in Hrun.
    assert (Ok m = Ok {[ "Other" := "Bogus"; "Unknown Shop" := "Uncategorized" ]})
      as Heq by (rewrite <- Hrun; vm_compute; reflexivity).
    clear Hrun. injection Heq as Heq. exact Heq. }
  clear Hrun.
  apply (f_equal (λ keys : gset string, bool_decide ("Other" ∈ keys))) in Hdom.
  vm_compute in Hdom. discriminate Hdom.
Qed.

(** C1, amended. On keyword rules of the declared shape whose categories
    are configured categories, and with a client that answers about the
    descriptions it was asked about with categories of the enum of the
    request, the orchestrator returns a mapping whose key set is exactly
    the input set and whose values are configured categories or
    "Uncategorized". *)
Theorem totality_with_faithful_service env self (D : gset string) w rules :
  KeywordCategorizer.keyword_rules (MainCategorizer.keyword_categorizer self)
  = of_rules rules →
  OpenAICategorizer.schema_enum (MainCategorizer.openai_categorizer self)
  = MainCategorizer.categories self →
  (∀ r, r ∈ rules → r.1 ∈ Claims.configured self w) →
  faithful (OpenAICategorizer.client (MainCategorizer.openai_categorizer self)) →
  Claims.total env self D w.
Proof.
  intros Hrules Henum Hcats Hfaith.
  destruct self as [cats [kcats krules] oc]. cbn in Hrules, Henum, Hfaith. subst krules.
  set (self := MainCategorizer.Make cats
                 (KeywordCategorizer.Make kcats (of_rules rules)) oc) in *.
  pose proof (KeywordFacts.keyword_categorize_typed env kcats rules D w) as Hk.
  set (w1 := logged env KeywordLogger INFO _ w) in Hk.
  assert (lists w1 = lists w) as Hl1 by apply EffFacts.logged_lists.
  destruct (MainFacts.main_categorize_run env self D w w1 _ Hk) as (w' & Hrun & _ & _).
  exists w', (merged env self (keyword_map rules D) w1).
  split; [exact Hrun|].
  set (kr := keyword_map rules D).
  assert (∀ d, is_Some (kr !! d) ↔ d ∈ D) as Hkdom.
  { intros d. unfold kr. rewrite KeywordFacts.keyword_map_lookup.
    case_decide; split; [done|eauto|by intros [? ?]|done]. }
  assert (∀ d c, kr !! d = Some c →
            c ∈ default [] (lists w !! cats) ∨ c = "Uncategorized") as Hkval.
  { intros d c. unfold kr. rewrite KeywordFacts.keyword_map_lookup.
    case_decide; [|done]. intros [= <-]. unfold assign.
    destruct (find _ rules) as [r|] eqn:E; [|by right].
    left. apply find_some in E as [Hr _].
    apply (Hcats r). by apply list_elem_of_In. }
  assert (∀ d c, returned env oc (MainCategorizer.uncategorized kr) w1 !! d = Some c →
            d ∈ D ∧ (c ∈ default [] (lists w !! cats) ∨ c = "Uncategorized")) as Hret.
  { intros d c [[Hin ->]|(k & b & Hb & Hn)]%MainFacts.returned_lookup.
    - split; [|by right]. apply Hkdom.
      apply MainFacts.elem_of_uncategorized in Hin. eauto.
    - apply Hfaith in Hn as [Hd Hc]. cbn in Hd, Hc. split.
      + apply Hkdom. eapply MainFacts.elem_of_batches in Hd; [|done].
        apply KeywordFacts.set_order_elem, MainFacts.elem_of_uncategorized in Hd.
        eauto.
      + left. by rewrite Hl1, Henum in Hc. }
  unfold merged. cbn [MainCategorizer.openai_categorizer]. fold kr.
  case_bool_decide as Hu.
  - split.
    + apply set_eq. intros d. rewrite elem_of_dom. apply Hkdom.
    + apply Hkval.
  - split.
    + apply set_eq. intros d. rewrite elem_of_dom, lookup_union_is_Some.
      split; [|intros ?; right; by apply Hkdom].
      intros [[c Hc]|Hd]; [by apply Hret in Hc as [? _]|by apply Hkdom].
    + intros d c [Hc|[_ Hc]]%lookup_union_Some_raw.
      * by apply Hret in Hc as [_ ?].
      * by eapply Hkval.
Qed.

Lemma totality_with_faithful_service_witness :
  Claims.total (Examples.shop_env Examples.cautious 20)
    (Examples.constructed (Examples.shop_env Examples.cautious 20))
    Examples.descriptions
    (Examples.world_after (Examples.shop_env Examples.cautious 20)).
Proof.
  apply (totality_with_faithful_service
           (Examples.shop_env Examples.cautious 20)
           (Examples.constructed (Examples.shop_env Examples.cautious 20))
           Examples.descriptions
           (Examples.world_after (Examples.shop_env Examples.cautious 20))
           Examples.shop_rules).
  - reflexivity.
  - reflexivity.
  - apply Forall_forall. vm_compute. repeat constructor.
  - exact cautious_faithful.
Defined.

(** C2, refuted as stated: the keyword tier assigns "Groceries" to
    "MIGROS Zurich", which is in no request, and yet the answer to the
    request for "Unknown Shop" names it and replaces its category. *)
Lemma keyword_precedence_counterexample :
  ¬ Claims.keyword_wins
      (Examples.shop_env
         (Examples.answers [Object (Some "MIGROS Zurich") (Some "Transport")]) 20)
      (Examples.constructed
         (Examples.shop_env
            (Examples.answers [Object (Some "MIGROS Zurich") (Some "Transport")]) 20))
      Examples.descriptions
      (Examples.world_after
         (Examples.shop_env
            (Examples.answers [Object (Some "MIGROS Zurich") (Some "Transport")]) 20)).
Proof.
  intros H.
  set (env := Examples.shop_env
                (Examples.answers [Object (Some "MIGROS Zurich") (Some "Transport")]) 20)
    in *.
  destruct (H (KeywordCategorizer.categorize env
                 (MainCategorizer.keyword_categorizer (Examples.constructed env))
                 Examples.descriptions (Examples.world_after env)).1
              {[ "MIGROS Zurich" := "Groceries"; "SBB Ticket" := "Transport";
                 "Unknown Shop" := "Uncategorized" ]}
              "MIGROS Zurich" "Groceries")
    as (w' & m & new & Hrun & Hm & _); clear H.
  - vm_compute. reflexivity.
  - vm_compute. reflexivity.
  - intros Heq. discriminate Heq.
  - assert (Ok m = Ok {[ "MIGROS Zurich" := "Transport"; "SBB Ticket" := "Transport";
                        "Unknown Shop" := "Uncategorized" ]}) as Heq.
    { apply (f_equal snd) in Hrun. cbn [snd] in Hrun.
      rewrite <- Hrun. vm_compute. reflexivity. }
    clear Hrun. injection Heq as ->. vm_compute in Hm. discriminate Hm.
Qed.

(** C2, amended. A description to which the keyword tier assigns a category
    other than "Uncategorized" is in no request of the model tier, and the
    final mapping assigns that category to it whenever the client names a
    description only in answer to a request that holds it; in general the
    final mapping assigns it the category of the keyword tier or one that
    an answer of the client gave it. *)
Theorem keyword_precedence_unless_named env self (D : gset string) w w1 kr d c :
  KeywordCategorizer.categorize env (MainCategorizer.keyword_categorizer self) D w
  = (w1, Ok kr) →
  kr !! d = Some c →
  c ≠ "Uncategorized" →
  ∃ w' m new,
    MainCategorizer.categorize env self D w = (w', Ok m)
    ∧ requests w' = requests w ++ new
    ∧ (∀ rq, rq ∈ new → d ∉ rq_descriptions rq)
    ∧ ((∀ n rq c',
          names_at (OpenAICategorizer.client (MainCategorizer.openai_categorizer self))
            n rq d c' → d ∈ rq_descriptions rq) →
       m !! d = Some c)
    ∧ (m !! d = Some c
       ∨ ∃ c', names (OpenAICategorizer.client (MainCategorizer.openai_categorizer self))
                 d c' ∧ m !! d = Some c').
Proof.
  intros Hk Hd Hc.
  destruct (MainFacts.main_categorize_run env self D w w1 kr Hk) as (w' & Hrun & _ & Hreq).
  exists w', (merged env self kr w1), (sent env self kr w1).
  split; [done|]. split; [done|].
  assert (d ∉ MainCategorizer.uncategorized kr) as Hnu.
  { intros Hin%MainFacts.elem_of_uncategorized. congruence. }
  assert (∀ k b, batches (set_order env (MainCategorizer.uncategorized kr)) !! k = Some b →
            d ∉ b) as Hnb.
  { intros k b Hb Hin. apply Hnu. eapply MainFacts.elem_of_batches in Hin; [|done].
    by apply KeywordFacts.set_order_elem in Hin. }
  split; [|split].
  - intros rq (b & -> & Hb)%list_elem_of_fmap. cbn.
    apply list_elem_of_lookup in Hb as [k Hb]. by eapply Hnb.
  - intros Hasked. unfold merged. case_bool_decide; [done|].
    apply lookup_union_Some_raw. right. split; [|done].
    apply eq_None_not_Some. intros [c' Hc'].
    apply MainFacts.returned_lookup in Hc' as [[Hin _]|(k & b & Hb & Hn)]; [done|].
    apply Hasked in Hn. cbn in Hn. by eapply Hnb.
  - unfold merged. case_bool_decide; [by left|].
    destruct (returned env (MainCategorizer.openai_categorizer self)
                (MainCategorizer.uncategorized kr) w1 !! d) as [c'|] eqn:E.
    + right. exists c'. split.
      * apply MainFacts.returned_lookup in E as [[Hin _]|(k & b & _ & Hn)]; [done|].
        eexists _, _. exact Hn.
      * apply lookup_union_Some_raw. by left.
    + left. apply lookup_union_Some_raw. by right.
Qed.

Lemma keyword_precedence_unless_named_witness :
  ∃ w' m,
    MainCategorizer.categorize (Examples.shop_env Examples.cautious 20)
      (Examples.constructed (Examples.shop_env Examples.cautious 20))
      Examples.descriptions
      (Examples.world_after (Examples.shop_env Examples.cautious 20)) = (w', Ok m)
    ∧ m !! "SBB Ticket" = Some "Transport".
Proof.
  destruct (keyword_precedence_unless_named
              (Examples.shop_env Examples.cautious 20)
              (Examples.constructed (Examples.shop_env Examples.cautious 20))
              Examples.descriptions
              (Examples.world_after (Examples.shop_env Examples.cautious 20))
              (KeywordCategorizer.categorize (Examples.shop_env Examples.cautious 20)
                 (MainCategorizer.keyword_categorizer
                    (Examples.constructed (Examples.shop_env Examples.cautious 20)))
                 Examples.descriptions
                 (Examples.world_after (Examples.shop_env Examples.cautious 20))).1
              {[ "MIGROS Zurich" := "Groceries"; "SBB Ticket" := "Transport";
                 "Unknown Shop" := "Uncategorized" ]}
              "SBB Ticket" "Transport")
    as (w' & m & new & Hrun & _ & _ & Hm & _).
  - vm_compute. reflexivity.
  - vm_compute. reflexivity.
  - discriminate.
  - exists w', m. split; [exact Hrun|]. apply Hm.
    intros n rq c' Hn. apply cautious_faithful in Hn as [Hd _]. exact Hd.
Defined.

(** C6, refuted as stated: the category "Bogus" is not in the enum of the
    schema, the client returns it for the description it was asked about,
    and the model tier returns it. *)
Lemma enum_validation_counterexample :
  ¬ Claims.within_enum
      (Examples.shop_env (Examples.echo "Bogus") 20)
      (MainCategorizer.openai_categorizer
         (Examples.constructed (Examples.shop_env (Examples.echo "Bogus") 20)))
      {[ "Unknown Shop" ]}
      (Examples.world_after (Examples.shop_env (Examples.echo "Bogus") 20)).
Proof.
  intros H.
  assert ("Bogus" ∈ ["Groceries"; "Transport"; "Uncategorized"]) as Hin.
  { eapply (H _ _ eq_refl "Unknown Shop"). vm_compute. reflexivity. }
  repeat (apply elem_of_cons in Hin as [Hin|Hin]; [discriminate|]).
  by apply elem_of_nil in Hin.
Qed.

(** C6, amended. The model tier checks no category against the enum, which
    is only declared in the schema of the request: a pair that has both
    keys is recorded whatever its category, and a pair that lacks a key is
    skipped without an effect on the entries around it. So every value of
    the returned mapping is "Uncategorized" or a category that an answer of
    the client gave to that description, and it lies in a list [enum]
    whenever all categories the client answers with do. *)
Theorem model_tier_records_any_category env self (X : gset string) w w' m :
  OpenAICategorizer.categorize env self X w = (w', Ok m) →
  (∀ d c, m !! d = Some c →
     c = "Uncategorized" ∨ names (OpenAICategorizer.client self) d c)
  ∧ (∀ enum : list string,
       (∀ d c, names (OpenAICategorizer.client self) d c → c ∈ enum) →
       ∀ d c, m !! d = Some c → c = "Uncategorized" ∨ c ∈ enum)
  ∧ (∀ results before d c behind,
       NotAnObject ∉ before →
       (∀ c', Object (Some d) (Some c') ∉ behind) →
       (OpenAICategorizer.record_entries results
          (before ++ Object (Some d) (Some c) :: behind)).1 !! d = Some c)
  ∧ (∀ results before description category behind,
       description = None ∨ category = None →
       OpenAICategorizer.record_entries results
         (before ++ Object description category :: behind)
       = OpenAICategorizer.record_entries results (before ++ behind)).
Proof.
  intros Hrun.
  assert (∀ d c, m !! d = Some c →
            c = "Uncategorized" ∨ names (OpenAICategorizer.client self) d c) as Hprov.
  { destruct (decide (X = ∅)) as [->|HX].
    - rewrite ModelFacts.model_categorize_empty in Hrun. by injection Hrun as _ <-.
    - destruct (ModelFacts.model_categorize_run env self X w HX) as (w2 & Hrun2 & _).
      rewrite Hrun2 in Hrun. injection Hrun as _ <-.
      intros d c [[_ ->]|(k & b & _ & Hn)]%MainFacts.returned_lookup; [by left|].
      right. eexists _, _. exact Hn. }
  split; [done|]. split; [|split].
  - intros enum Henum d c [->|Hn]%Hprov; [by left|]. right. by eapply Henum.
  - apply ModelFacts.record_entries_records.
  - intros results before description category behind Hnone. revert results.
    induction before as [|e before IH]; intros results.
    + destruct Hnone as [-> | ->]; [done|]. by destruct description.
    + destruct e as [[d'|] [c'|]|]; cbn [app OpenAICategorizer.record_entries];
        try done; apply IH.
Qed.

Lemma model_tier_records_any_category_witness :
  "Bogus" = "Uncategorized" ∨ names (Examples.echo "Bogus") "Unknown Shop" "Bogus".
Proof.
  destruct (model_tier_records_any_category
              (Examples.shop_env (Examples.echo "Bogus") 20)
              (MainCategorizer.openai_categorizer
                 (Examples.constructed (Examples.shop_env (Examples.echo "Bogus") 20)))
              {[ "Unknown Shop" ]}
              (Examples.world_after (Examples.shop_env (Examples.echo "Bogus") 20))
              (OpenAICategorizer.categorize
                 (Examples.shop_env (Examples.echo "Bogus") 20)
                 (MainCategorizer.openai_categorizer
                    (Examples.constructed (Examples.shop_env (Examples.echo "Bogus") 20)))
                 {[ "Unknown Shop" ]}
                 (Examples.world_after (Examples.shop_env (Examples.echo "Bogus") 20))).1
              {[ "Unknown Shop" := "Bogus" ]})
    as [Hvalues _].
  - vm_compute. reflexivity.
  - apply (Hvalues "Unknown Shop" "Bogus"). vm_compute. reflexivity.
Defined.

(** C7, refuted as stated: the leading space keeps [^Einkauf\s+] from
    matching, the trimming removes the space, and the second cleaning
    removes the word. *)
Lemma clean_idempotent_counterexample : ¬ Claims.idempotent_at " Einkauf shop".
Proof. unfold Claims.idempotent_at. vm_compute. intros H. discriminate H. Qed.

(** C7, amended. The cleaned text is in whitespace normal form, so that
    collapsing and trimming it again changes nothing; and cleaning it again
    changes nothing when none of the six removal patterns is found in it. *)
Theorem clean_idempotent_without_pattern x :
  CleanSpec.pattern_found (TransactionProcessor.clean x) = false →
  Text.strip (TransactionProcessor.collapse (TransactionProcessor.clean x))
  = TransactionProcessor.clean x
  ∧ Claims.idempotent_at x.
Proof.
  intros Hnone. split; [apply CleanFacts.clean_whitespace_normal|].
  unfold Claims.idempotent_at.
  unfold TransactionProcessor.clean at 1, TransactionProcessor.remove_patterns.
  rewrite CleanFacts.remove_patterns_none by exact Hnone.
  apply CleanFacts.clean_whitespace_normal.
Qed.

Lemma clean_idempotent_without_pattern_witness :
  Text.strip (TransactionProcessor.collapse
                (TransactionProcessor.clean
                   "Einkauf  Karte: 1234****5678 MIGROS   Zurich 12.03.2024 10:30"))
  = TransactionProcessor.clean
      "Einkauf  Karte: 1234****5678 MIGROS   Zurich 12.03.2024 10:30"
  ∧ Claims.idempotent_at
      "Einkauf  Karte: 1234****5678 MIGROS   Zurich 12.03.2024 10:30".
Proof.
  apply (clean_idempotent_without_pattern
           "Einkauf  Karte: 1234****5678 MIGROS   Zurich 12.03.2024 10:30").
  vm_compute. reflexivity.
Defined.

(** C8, refuted as stated: a rules file that holds [{"Food": 5}] is loaded
    without an error, and the keyword tier raises [TypeError] on the first
    description; the orchestrator does not catch it. *)
Lemma never_raises_counterexample :
  ¬ Claims.returns
      (Examples.environment_of (Content Examples.misshaped_rules) Examples.failing 20)
      (Examples.constructed
         (Examples.environment_of (Content Examples.misshaped_rules) Examples.failing 20))
      {[ "Coffee" ]}
      (Examples.world_after
         (Examples.environment_of (Content Examples.misshaped_rules) Examples.failing 20)).
Proof.
  intros (w' & m & Hrun). apply (f_equal snd) in Hrun.
  vm_compute in Hrun. discriminate Hrun.
Qed.

(** C8, amended. When the rules file is missing, unreadable or no JSON, or
    holds an object from category names to lists of keyword strings, the
    [categorize] of a constructed orchestrator returns a mapping for every
    input set, whatever the client answers and whatever the logger levels
    are; and when the file could not be loaded, the keyword tier maps every
    description to "Uncategorized". *)
Theorem categorize_returns_on_shaped_rules
    env r keyword_rules_file ai_settings_file w w1 self :
  MainCategorizer.__init__ env r keyword_rules_file ai_settings_file w = (w1, Ok self) →
  (∀ v, Config.load env (Config.resolve env keyword_rules_file) = Ok v →
        ∃ rules, v = of_rules rules) →
  ∀ (D : gset string) w2,
    Claims.returns env self D w2
    ∧ ((∀ v, Config.load env (Config.resolve env keyword_rules_file) ≠ Ok v) →
       ∃ w3, KeywordCategorizer.categorize env
               (MainCategorizer.keyword_categorizer self) D w2
             = (w3, Ok (gset_to_gmap "Uncategorized" D))).
Proof.
  intros Hinit Hshape D w2.
  destruct (InitFacts.main_init_run env r keyword_rules_file ai_settings_file w)
    as (w1' & res & Hrun & _ & _ & Hself).
  rewrite Hinit in Hrun. injection Hrun as <- <-.
  destruct (Hself self eq_refl) as (_ & _ & Hrules & _).
  destruct self as [cats [kcats krules] oc]. cbn in Hrules. subst krules.
  assert (∃ rules, loaded_rules env keyword_rules_file = of_rules rules
                   ∧ ((∀ v, Config.load env (Config.resolve env keyword_rules_file) ≠ Ok v)
                      → rules = [])) as (rules & -> & Hnil).
  { unfold loaded_rules.
    destruct (Config.load env (Config.resolve env keyword_rules_file)) as [v|e].
    - destruct (Hshape v eq_refl) as [rules ->]. exists rules.
      split; [done|]. intros Hno. by destruct (Hno (of_rules rules)).
    - by exists []. }
  clear Hinit Hself.
  set (self := MainCategorizer.Make cats
                 (KeywordCategorizer.Make kcats (of_rules rules)) oc).
  pose proof (KeywordFacts.keyword_categorize_typed env kcats rules D w2) as Hk.
  split.
  - destruct (MainFacts.main_categorize_run env self D w2 _ _ Hk) as (w3 & Hrun & _).
    eexists _, _. exact Hrun.
  - intros Hno. unfold self. cbn [MainCategorizer.keyword_categorizer]. rewrite Hk.
    eexists. do 2 f_equal. rewrite (Hnil Hno).
    apply map_eq. intros d.
    rewrite KeywordFacts.keyword_map_lookup, lookup_gset_to_gmap.
    unfold assign. cbn.
    destruct (decide (d ∈ D)) as [Hin|Hin];
      [rewrite option_guard_True by done|rewrite option_guard_False by done]; done.
Qed.

Lemma categorize_returns_on_shaped_rules_witness :
  Claims.returns
    (Examples.environment_of Malformed (Examples.echo "Bogus") 20)
    (Examples.constructed (Examples.environment_of Malformed (Examples.echo "Bogus") 20))
    Examples.descriptions Examples.start.
Proof.
  apply (categorize_returns_on_shaped_rules
           (Examples.environment_of Malformed (Examples.echo "Bogus") 20)
           0 Examples.keyword_rules_file Examples.ai_settings_file Examples.start
           (Examples.world_after
              (Examples.environment_of Malformed (Examples.echo "Bogus") 20))
           (Examples.constructed
              (Examples.environment_of Malformed (Examples.echo "Bogus") 20))).
  - vm_compute. reflexivity.
  - intros v Hv. vm_compute in Hv. discriminate Hv.
Defined.

(** * Further properties of the code *)

Import MoreSpec.

(** ** The keyword tier on rules of any shape *)

Module KeywordMore.
Import Text KeywordCategorizer KeywordFacts EffFacts.

Lemma first_category_source desc_lower items c :
  first_category desc_lower items = Ok (Some c) → ∃ keywords, (c, keywords) ∈ items.
Proof.
  induction items as [|[c0 kws0] items IH]; [done|]. cbn.
  destruct (Py.iter kws0) as [kws|]; [|done]. cbn.
  destruct (any_keyword desc_lower kws) as [[]|]; [| |done]; cbn.
  - intros [= <-]. exists kws0. by left.
  - intros [kws' Hin]%IH. exists kws'. by right.
Qed.

Lemma for_each_values rules results descs m :
  for_each rules results descs = Ok m →
  ∀ d c, m !! d = Some c →
    results !! d = Some c ∨ c = "Uncategorized"
    ∨ ∃ members keywords, rules = JObj members ∧ (c, keywords) ∈ members.
Proof.
  revert results. induction descs as [|d0 descs IH]; intros results; cbn.
  - intros [= ->] d c Hd. by left.
  - unfold categorize_one at 1.
    destruct rules as [| | | | |members]; try done. cbn.
    destruct (first_category (lower d0) members) as [matched|] eqn:E; [|done].
    cbn. intros Hm d c Hd.
    destruct (IH _ Hm d c Hd) as [Hr|Hr]; [|by right].
    destruct (decide (d0 = d)) as [->|Hne].
    + rewrite lookup_insert_eq in Hr. injection Hr as <-.
      destruct matched as [c0|]; cbn; [|right; by left].
      apply first_category_source in E as [kws Hin]. right. right. eauto.
    + rewrite lookup_insert_ne in Hr by done. by left.
Qed.

Lemma categorize_result env self (D : gset string) w :
  (categorize env self D w).2 = for_each (keyword_rules self) ∅ (set_order env D)
  ∧ lists (categorize env self D w).1 = lists w
  ∧ requests (categorize env self D w).1 = requests w.
Proof.
  unfold categorize. rewrite bind_run. unfold Eff.lift.
  destruct (for_each (keyword_rules self) ∅ (set_order env D)) as [m|e]; [|done].
  rewrite bind_run, emit_run, ret_run. cbn.
  by rewrite logged_lists, logged_requests.
Qed.

Lemma for_each_not_object rules results d descs :
  (∀ members, rules ≠ JObj members) →
  for_each rules results (d :: descs) = Raise AttributeError.
Proof. intros Hno. cbn. unfold categorize_one. by destruct rules; [..|destruct (Hno members)]. Qed.




Lemma lower_app s t : lower (s +:+ t) = lower s +:+ lower t.
Proof. induction s as [|a s IH]; [done|]. rewrite app_cons. cbn. by rewrite IH. Qed.

Lemma hitsb_case d d' kws kws' :
  lower d = lower d' → lower <$> kws = lower <$> kws' →
  hitsb d kws = hitsb d' kws'.
Proof.
  intros Hd. unfold hitsb. rewrite Hd. clear Hd.
  revert kws'. induction kws as [|k kws IH]; intros [|k' kws'] Hk; try done.
  cbn in *. injection Hk as Hk1 Hk2. by rewrite Hk1, (IH kws').
Qed.

Lemma assign_case rules rules' d d' :
  same_up_to_case rules rules' → lower d = lower d' →
  assign rules d = assign rules' d'.
Proof.
  intros Hr Hd. unfold assign.
  induction Hr as [|[c kws] [c' kws'] rules rules' [Hc Hk] Hr IH]; [done|].
  cbn in Hc, Hk. subst c'.
  change (find _ ((c, kws) :: rules))
    with (if hitsb d kws then Some (c, kws) else find (λ r, hitsb d r.2) rules).
  change (find _ ((c, kws') :: rules'))
    with (if hitsb d' kws' then Some (c, kws') else find (λ r, hitsb d' r.2) rules').
  rewrite (hitsb_case d d' kws kws' Hd Hk).
  by destruct (hitsb d' kws').
Qed.

End KeywordMore.

(** X1. The rules are read only inside the loop over the descriptions: on
    the empty input set the orchestrator returns the empty mapping and
    sends nothing whatever the rules hold, and when the rules are no JSON
    object (a list, a string, a number, null) it raises [AttributeError] on
    every input set that is not empty, before anything is logged or sent. *)
Theorem rules_read_per_description env self w :
  (∃ w', MainCategorizer.categorize env self ∅ w = (w', Ok ∅)
         ∧ lists w' = lists w ∧ requests w' = requests w)
  ∧ ∀ D : gset string,
      D ≠ ∅ →
      (∀ members,
         KeywordCategorizer.keyword_rules (MainCategorizer.keyword_categorizer self)
         ≠ JObj members) →
      MainCategorizer.categorize env self D w = (w, Raise AttributeError).
Proof.
  split.
  - assert (KeywordCategorizer.categorize env (MainCategorizer.keyword_categorizer self) ∅ w
            = ((KeywordCategorizer.categorize env
                  (MainCategorizer.keyword_categorizer self) ∅ w).1, Ok ∅)) as Hk.
    { destruct (KeywordMore.categorize_result env
                  (MainCategorizer.keyword_categorizer self) ∅ w) as (Hres & _).
      rewrite (proj2 (KeywordFacts.set_order_nil env ∅) eq_refl) in Hres.
      cbn in Hres. rewrite <- Hres. by destruct (KeywordCategorizer.categorize _ _ _ _). }
    destruct (MainFacts.main_categorize_run env self ∅ w _ ∅ Hk)
      as (w' & Hrun & Hl & Hr).
    assert (MainCategorizer.uncategorized ∅ = ∅) as Hu.
    { apply set_eq. intros d. rewrite MainFacts.elem_of_uncategorized, lookup_empty.
      split; [done|]. by intros ?%not_elem_of_empty. }
    exists w'. split; [|split; [done|]].
    + rewrite Hrun. unfold merged. by rewrite bool_decide_eq_true_2.
    + rewrite Hr. unfold sent.
      rewrite Hu, (proj2 (KeywordFacts.set_order_nil env ∅) eq_refl).
      cbn. by rewrite app_nil_r.
  - intros D HD Hno. apply MainFacts.main_categorize_raise.
    unfold KeywordCategorizer.categorize. rewrite EffFacts.bind_run. unfold Eff.lift.
    destruct (set_order env D) as [|d descs] eqn:E.
    + by apply KeywordFacts.set_order_nil in E.
    + by rewrite KeywordMore.for_each_not_object.
Qed.

Lemma rules_read_per_description_witness :
  MainCategorizer.categorize (Examples.shop_env Examples.failing 20)
    (MainCategorizer.Make 0 (KeywordCategorizer.Make 0 (JArr [JStr "migros"]))
       (MainCategorizer.openai_categorizer
          (Examples.constructed (Examples.shop_env Examples.failing 20))))
    {[ "MIGROS Zurich" ]} Examples.start
  = (Examples.start, Raise AttributeError).
Proof.
  apply (proj2 (rules_read_per_description _ _ _)).
  - intros H. apply (f_equal size) in H. by rewrite size_singleton in H.
  - intros members H. discriminate H.
Defined.


(** X3. The empty keyword occurs in every description: a category that has
    it among its keywords takes every description that no earlier category
    of the rules has a keyword for, so that nothing behind it in the rules
    is ever assigned and such a description never stays uncategorized. *)
Theorem empty_keyword_takes_all env cats rules (D : gset string) w d
    earlier c keywords later :
  d ∈ D →
  rules = earlier ++ (c, keywords) :: later →
  "" ∈ keywords →
  (∀ r, r ∈ earlier → ¬ hits d r.2) →
  ∃ w' kr,
    KeywordCategorizer.categorize env
      (KeywordCategorizer.Make cats (of_rules rules)) D w = (w', Ok kr)
    ∧ kr !! d = Some c.
Proof.
  intros Hd -> Hempty Hearlier. rewrite KeywordFacts.keyword_categorize_typed.
  eexists _, _. split; [done|].
  rewrite KeywordFacts.keyword_map_lookup, decide_True by done. f_equal.
  symmetry. apply KeywordFacts.assigned_assign. left.
  exists earlier, keywords, later. split; [done|]. split; [|done].
  exists "". split; [done|]. by exists "", (Text.lower d).
Qed.

Lemma empty_keyword_takes_all_witness :
  ∃ w' kr,
    KeywordCategorizer.categorize (Examples.shop_env Examples.failing 20)
      (KeywordCategorizer.Make 0
         (of_rules [("Groceries", ["migros"]); ("Other", ["kiosk"; ""]);
                    ("Transport", ["sbb"])]))
      Examples.descriptions Examples.start = (w', Ok kr)
    ∧ kr !! "SBB Ticket" = Some "Other".
Proof.
  apply (empty_keyword_takes_all (Examples.shop_env Examples.failing 20) 0
           [("Groceries", ["migros"]); ("Other", ["kiosk"; ""]); ("Transport", ["sbb"])]
           Examples.descriptions Examples.start "SBB Ticket"
           [("Groceries", ["migros"])] "Other" ["kiosk"; ""] [("Transport", ["sbb"])]).
  - vm_compute. reflexivity.
  - reflexivity.
  - apply list_elem_of_In. simpl. auto.
  - intros r Hr. apply list_elem_of_In in Hr. simpl in Hr.
    destruct Hr as [<-|[]]. intros Hhit.
    apply KeywordFacts.hitsb_spec in Hhit. vm_compute in Hhit. discriminate Hhit.
Defined.

(** X4. The matching of the keyword tier is blind to case: two
    descriptions that are equal when lowercased get the same category, and
    changing the case of letters in the keywords of the rules changes no
    category. *)
Theorem keyword_tier_ignores_case env cats cats' rules rules'
    (D D' : gset string) w w' d d' :
  same_up_to_case rules rules' →
  Text.lower d = Text.lower d' →
  d ∈ D → d' ∈ D' →
  ∃ w1 w1' kr kr',
    KeywordCategorizer.categorize env
      (KeywordCategorizer.Make cats (of_rules rules)) D w = (w1, Ok kr)
    ∧ KeywordCategorizer.categorize env
        (KeywordCategorizer.Make cats' (of_rules rules')) D' w' = (w1', Ok kr')
    ∧ kr !! d = kr' !! d'
    ∧ is_Some (kr !! d).
Proof.
  intros Hrules Hlower Hd Hd'. rewrite !KeywordFacts.keyword_categorize_typed.
  eexists _, _, _, _. split; [done|]. split; [done|].
  rewrite !KeywordFacts.keyword_map_lookup, !decide_True by done.
  split; [|eauto]. f_equal. by apply KeywordMore.assign_case.
Qed.

Lemma keyword_tier_ignores_case_witness :
  ∃ w1 w1' kr kr',
    KeywordCategorizer.categorize (Examples.shop_env Examples.failing 20)
      (KeywordCategorizer.Make 0 (of_rules Examples.shop_rules))
      {[ "MIGROS Zurich" ]} Examples.start = (w1, Ok kr)
    ∧ KeywordCategorizer.categorize (Examples.shop_env Examples.failing 20)
        (KeywordCategorizer.Make 0
           (of_rules [("Groceries", ["Migros"]); ("Transport", ["SBB"])]))
        {[ "migros ZURICH" ]} Examples.start = (w1', Ok kr')
    ∧ kr !! "MIGROS Zurich" = kr' !! "migros ZURICH"
    ∧ is_Some (kr !! "MIGROS Zurich").
Proof.
  apply (keyword_tier_ignores_case (Examples.shop_env Examples.failing 20) 0 0
           Examples.shop_rules
           [("Groceries", ["Migros"]); ("Transport", ["SBB"])]
           {[ "MIGROS Zurich" ]} {[ "migros ZURICH" ]}
           Examples.start Examples.start "MIGROS Zurich" "migros ZURICH").
  - repeat constructor.
  - reflexivity.
  - vm_compute. reflexivity.
  - vm_compute. reflexivity.
Defined.

(** X5. Whatever the rules file holds, a mapping the keyword tier returns
    has exactly the input set as its key set, and every value in it is
    "Uncategorized" or the name of a category of the rules: the tier
    invents no category and does not look at the configured category
    list. *)
Theorem keyword_tier_values_from_rules env self (D : gset string) w w' kr :
  KeywordCategorizer.categorize env self D w = (w', Ok kr) →
  dom kr = D
  ∧ ∀ d c, kr !! d = Some c →
      c = "Uncategorized"
      ∨ ∃ members keywords,
          KeywordCategorizer.keyword_rules self = JObj members
          ∧ (c, keywords) ∈ members.
Proof.
  intros Hrun.
  destruct (KeywordFacts.keyword_categorize_inv env self D w w' kr Hrun) as (Hdom & _).
  split; [done|].
  destruct (KeywordMore.categorize_result env self D w) as (Hres & _).
  rewrite Hrun in Hres. cbn in Hres. symmetry in Hres.
  intros d c Hd.
  destruct (KeywordMore.for_each_values _ _ _ _ Hres d c Hd) as [Hr|Hr]; [|done].
  by rewrite lookup_empty in Hr.
Qed.

Lemma keyword_tier_values_from_rules_witness :
  dom ({[ "MIGROS Zurich" := "Groceries"; "SBB Ticket" := "Transport";
          "Unknown Shop" := "Uncategorized" ]} : gmap string string)
  = Examples.descriptions.
Proof.
  apply (keyword_tier_values_from_rules (Examples.shop_env Examples.failing 20)
           (KeywordCategorizer.Make 0 (of_rules Examples.shop_rules))
           Examples.descriptions Examples.start
           (KeywordCategorizer.categorize (Examples.shop_env Examples.failing 20)
              (KeywordCategorizer.Make 0 (of_rules Examples.shop_rules))
              Examples.descriptions Examples.start).1).
  vm_compute. reflexivity.
Defined.

(** ** The two tiers together *)

Module TiersMore.
Import OpenAICategorizer ModelFacts MainFacts KeywordFacts EffFacts.

Lemma recorded_worlds env self (X : gset string) w1 w2 :
  lists w1 = lists w2 → requests w1 = requests w2 →
  recorded env self X w1 = recorded env self X w2.
Proof.
  intros Hl Hr. unfold recorded. rewrite Hr.
  apply record_batches_ext. intros b. by apply request_for_lists.
Qed.

Lemma fill_union rec (kr : gmap string string) env :
  fill rec (set_order env (MainCategorizer.uncategorized kr)) ∪ kr = rec ∪ kr.
Proof.
  apply map_eq. intros d. rewrite !lookup_union, fill_lookup.
  destruct (rec !! d) as [c|]; [done|].
  case_decide as Hin; [|done].
  apply set_order_elem, elem_of_uncategorized in Hin. by rewrite Hin.
Qed.

Lemma merged_levels env self kr w1 w2 lv lv' :
  lists w1 = lists w2 → requests w1 = requests w2 →
  merged (with_levels env lv) self kr w1 = merged (with_levels env lv') self kr w2.
Proof.
  intros Hl Hr. unfold merged. case_bool_decide; [done|].
  assert (∀ lv0 w0, lists w0 = lists w2 → requests w0 = requests w2 →
            returned (with_levels env lv0) (MainCategorizer.openai_categorizer self)
              (MainCategorizer.uncategorized kr) w0 ∪ kr
            = recorded env (MainCategorizer.openai_categorizer self)
                (MainCategorizer.uncategorized kr) w2 ∪ kr) as Hsame.
  { intros lv0 w0 Hl0 Hr0. unfold returned.
    change (recorded (with_levels env lv0)) with (recorded env).
    change (set_order (with_levels env lv0)) with (set_order env).
    rewrite (recorded_worlds env _ _ w0 w2 Hl0 Hr0).
    destruct (Eff.isEnabledFor _ _ _); [apply fill_union|done]. }
  by rewrite (Hsame lv w1 Hl Hr), (Hsame lv' w2 eq_refl eq_refl).
Qed.

Lemma record_entries_answering (f : string → string) results (b : list string) :
  record_entries results ((λ d, Object (Some d) (Some (f d))) <$> b)
  = (foldl (λ r d, <[d := f d]> r) results b, Ok ()).
Proof.
  revert results. induction b as [|d b IH]; intros results; [done|].
  cbn. apply IH.
Qed.

Lemma record_batches_answering cl mk (f : string → string) n results bs d :
  (∀ k rq, cl k rq = answering f k rq) →
  (∀ b, rq_descriptions (mk b) = b) →
  record_batches cl mk n results bs !! d
  = if decide (d ∈ concat bs) then Some (f d) else results !! d.
Proof.
  intros Hcl Hmk. revert n results.
  induction bs as [|b bs IH]; intros n results; cbn [record_batches concat].
  - by rewrite decide_False by apply not_elem_of_nil.
  - rewrite IH, Hcl. unfold answering. rewrite Hmk. cbn [absorb default from_option id].
    rewrite record_entries_answering. cbn [fst].
    rewrite foldl_insert_lookup.
    destruct (decide (d ∈ concat bs)) as [Hin|Hnin].
    + by rewrite decide_True by (apply elem_of_app; by right).
    + destruct (decide (d ∈ b)) as [Hb|Hb].
      * by rewrite decide_True by (apply elem_of_app; by left).
      * by rewrite decide_False by (by intros [?|?]%elem_of_app).
Qed.



Lemma main_categorize_keyword env self (D : gset string) w w' m :
  MainCategorizer.categorize env self D w = (w', Ok m) →
  ∃ w1 kr,
    KeywordCategorizer.categorize env (MainCategorizer.keyword_categorizer self) D w
    = (w1, Ok kr)
    ∧ m = merged env self kr w1.
Proof.
  intros Hrun.
  destruct (KeywordCategorizer.categorize env
              (MainCategorizer.keyword_categorizer self) D w) as [w1 [kr|e]] eqn:Hk.
  - exists w1, kr. split; [done|].
    destruct (main_categorize_run env self D w w1 kr Hk) as (w2 & Hrun2 & _).
    rewrite Hrun2 in Hrun. by injection Hrun as _ <-.
  - rewrite (main_categorize_raise env self D w w1 e Hk) in Hrun. done.
Qed.

Lemma hint_lines_object members categories :
  hint_lines (JObj members) categories
  = Ok (omap (λ c, pair c <$> Py.assoc c members) categories).
Proof.
  induction categories as [|c categories IH]; [done|]. cbn.
  destruct (Py.assoc c members) as [h|] eqn:E; cbn; by rewrite IH.
Qed.

End TiersMore.

(** X6. The model tier is asked about exactly the descriptions to which the
    keyword tier gave the value "Uncategorized" (by default or through a
    rule of that name): a description is in some request of the call if and
    only if its keyword result is the sentinel. When no description has
    it, nothing is sent and the keyword mapping is the result. *)
Theorem forwarded_exactly_uncategorized env self (D : gset string) w w1 kr :
  KeywordCategorizer.categorize env (MainCategorizer.keyword_categorizer self) D w
  = (w1, Ok kr) →
  ∃ w' m new,
    MainCategorizer.categorize env self D w = (w', Ok m)
    ∧ requests w' = requests w ++ new
    ∧ (∀ d, (∃ rq, rq ∈ new ∧ d ∈ rq_descriptions rq)
            ↔ kr !! d = Some "Uncategorized")
    ∧ ((∀ d, kr !! d ≠ Some "Uncategorized") → new = [] ∧ m = kr).
Proof.
  intros Hk.
  destruct (MainFacts.main_categorize_run env self D w w1 kr Hk) as (w' & Hrun & _ & Hr).
  exists w', (merged env self kr w1), (sent env self kr w1).
  split; [done|]. split; [done|]. split.
  - intros d. rewrite <- MainFacts.elem_of_uncategorized,
      <- (KeywordFacts.set_order_elem env),
      <- (ModelFacts.batches_concat (set_order env _)).
    unfold sent. split.
    + intros (rq & (b & -> & Hb)%list_elem_of_fmap & Hd). cbn in Hd.
      apply list_elem_of_In, in_concat. exists b.
      split; by apply list_elem_of_In.
    + intros (b & Hb & Hd)%list_elem_of_In%in_concat.
      apply list_elem_of_In in Hb, Hd.
      exists (request_for (MainCategorizer.openai_categorizer self) w1 b).
      split; [|done]. apply list_elem_of_fmap. eauto.
  - intros Hnone.
    assert (MainCategorizer.uncategorized kr = ∅) as Hu.
    { apply set_eq. intros d. rewrite MainFacts.elem_of_uncategorized.
      split; [by intros ?%Hnone|by intros ?%not_elem_of_empty]. }
    unfold sent, merged.
    rewrite Hu, (proj2 (KeywordFacts.set_order_nil env ∅) eq_refl).
    by rewrite bool_decide_eq_true_2.
Qed.

Lemma forwarded_exactly_uncategorized_witness :
  ∃ w' m new,
    MainCategorizer.categorize (Examples.shop_env Examples.failing 20)
      (Examples.constructed (Examples.shop_env Examples.failing 20))
      {[ "MIGROS Zurich"; "SBB Ticket" ]}
      (Examples.world_after (Examples.shop_env Examples.failing 20)) = (w', Ok m)
    ∧ requests w'
      = requests (Examples.world_after (Examples.shop_env Examples.failing 20)) ++ new
    ∧ new = [] ∧ m = {[ "MIGROS Zurich" := "Groceries"; "SBB Ticket" := "Transport" ]}.
Proof.
  destruct (forwarded_exactly_uncategorized (Examples.shop_env Examples.failing 20)
              (Examples.constructed (Examples.shop_env Examples.failing 20))
              {[ "MIGROS Zurich"; "SBB Ticket" ]}
              (Examples.world_after (Examples.shop_env Examples.failing 20))
              (KeywordCategorizer.categorize (Examples.shop_env Examples.failing 20)
                 (MainCategorizer.keyword_categorizer
                    (Examples.constructed (Examples.shop_env Examples.failing 20)))
                 {[ "MIGROS Zurich"; "SBB Ticket" ]}
                 (Examples.world_after (Examples.shop_env Examples.failing 20))).1
              {[ "MIGROS Zurich" := "Groceries"; "SBB Ticket" := "Transport" ]})
    as (w' & m & new & Hrun & Hreq & _ & Hnone).
  - vm_compute. reflexivity.
  - exists w', m, new. split; [exact Hrun|]. split; [exact Hreq|].
    apply Hnone. intros d Hd.
    destruct (decide (d = "MIGROS Zurich")) as [->|H1];
      [vm_compute in Hd; discriminate Hd|].
    destruct (decide (d = "SBB Ticket")) as [->|H2];
      [vm_compute in Hd; discriminate Hd|].
    rewrite lookup_insert_ne, lookup_singleton_ne in Hd by done.
    discriminate Hd.
Defined.

(** X7. The logger levels change what the model tier returns, but not what
    the orchestrator returns: for the same orchestrator, input set and
    world, the result of [categorize] (the final mapping, or the exception
    raised) and the requests sent are the same at all logger levels. *)
Theorem final_mapping_ignores_levels env self (D : gset string) w lv lv' :
  (MainCategorizer.categorize (with_levels env lv) self D w).2
  = (MainCategorizer.categorize (with_levels env lv') self D w).2
  ∧ requests (MainCategorizer.categorize (with_levels env lv) self D w).1
    = requests (MainCategorizer.categorize (with_levels env lv') self D w).1.
Proof.
  set (kc := MainCategorizer.keyword_categorizer self).
  destruct (KeywordMore.categorize_result (with_levels env lv) kc D w)
    as (Hres & Hl & Hr).
  destruct (KeywordMore.categorize_result (with_levels env lv') kc D w)
    as (Hres' & Hl' & Hr').
  change (set_order (with_levels env lv') D) with (set_order (with_levels env lv) D)
    in Hres'.
  destruct (KeywordCategorizer.categorize (with_levels env lv) kc D w)
    as [w1 r] eqn:Hk.
  destruct (KeywordCategorizer.categorize (with_levels env lv') kc D w)
    as [w1' r'] eqn:Hk'.
  cbn in Hres, Hl, Hr, Hres', Hl', Hr'.
  assert (r' = r) as -> by congruence.
  destruct r as [kr|e].
  - destruct (MainFacts.main_categorize_run _ self D w w1 kr Hk)
      as (w2 & -> & _ & Hreq).
    destruct (MainFacts.main_categorize_run _ self D w w1' kr Hk')
      as (w2' & -> & _ & Hreq').
    cbn. split.
    + f_equal. apply TiersMore.merged_levels; congruence.
    + rewrite Hreq, Hreq'. f_equal. unfold sent.
      apply list_fmap_ext. intros _ b _.
      apply ModelFacts.request_for_lists. congruence.
  - rewrite (MainFacts.main_categorize_raise _ self D w w1 e Hk).
    rewrite (MainFacts.main_categorize_raise _ self D w w1' e Hk').
    cbn. split; [done|congruence].
Qed.

(** X8. Whatever the client answers, a mapping the orchestrator returns
    holds every description of the input set as a key, and every other key
    of it is a description that some answer of the client named. *)
Theorem final_keys_cover_input env self (D : gset string) w w' m :
  MainCategorizer.categorize env self D w = (w', Ok m) →
  D ⊆ dom m
  ∧ ∀ d, d ∈ dom m →
      d ∈ D
      ∨ ∃ c, names (OpenAICategorizer.client (MainCategorizer.openai_categorizer self))
               d c.
Proof.
  intros Hrun.
  destruct (TiersMore.main_categorize_keyword env self D w w' m Hrun)
    as (w1 & kr & Hk & ->).
  destruct (KeywordFacts.keyword_categorize_inv _ _ _ _ _ _ Hk) as (Hdom & _).
  unfold merged. case_bool_decide as Hu.
  - rewrite Hdom. split; [done|]. intros d Hd. by left.
  - rewrite dom_union_L, Hdom. split; [set_solver|].
    intros d [Hd|Hd]%elem_of_union; [|by left].
    apply elem_of_dom in Hd as [c Hc].
    apply MainFacts.returned_lookup in Hc as [[Hin _]|(k & b & _ & Hn)].
    + left. rewrite <- Hdom. apply elem_of_dom.
      apply MainFacts.elem_of_uncategorized in Hin. eauto.
    + right. exists c. eexists _, _. exact Hn.
Qed.

Lemma final_keys_cover_input_witness :
  ({[ "Unknown Shop" ]} : gset string)
  ⊆ dom ({[ "Other" := "Bogus"; "Unknown Shop" := "Uncategorized" ]}
         : gmap string string).
Proof.
  apply (final_keys_cover_input
           (Examples.shop_env (Examples.answers [Object (Some "Other") (Some "Bogus")]) 20)
           (Examples.constructed
              (Examples.shop_env
                 (Examples.answers [Object (Some "Other") (Some "Bogus")]) 20))
           {[ "Unknown Shop" ]}
           (Examples.world_after
              (Examples.shop_env
                 (Examples.answers [Object (Some "Other") (Some "Bogus")]) 20))
           (MainCategorizer.categorize
              (Examples.shop_env
                 (Examples.answers [Object (Some "Other") (Some "Bogus")]) 20)
              (Examples.constructed
                 (Examples.shop_env
                    (Examples.answers [Object (Some "Other") (Some "Bogus")]) 20))
              {[ "Unknown Shop" ]}
              (Examples.world_after
                 (Examples.shop_env
                    (Examples.answers [Object (Some "Other") (Some "Bogus")]) 20))).1).
  vm_compute. reflexivity.
Defined.

(** X9. With rules of the declared shape and a client that answers every
    request with one pair for each description it holds, the two tiers
    compose to a total mapping over the input set: a description keeps the
    category of the first rule that matches it, and gets the category of
    the client when no rule matches; the batches lose and add nothing. *)
Theorem two_tiers_compose env self (D : gset string) w rules f :
  KeywordCategorizer.keyword_rules (MainCategorizer.keyword_categorizer self)
  = of_rules rules →
  (∀ n rq, OpenAICategorizer.client (MainCategorizer.openai_categorizer self) n rq
           = answering f n rq) →
  ∃ w' m,
    MainCategorizer.categorize env self D w = (w', Ok m)
    ∧ dom m = D
    ∧ ∀ d, d ∈ D → m !! d = Some (two_tier rules f d).
Proof.
  intros Hrules Hcl.
  destruct self as [cats [kcats krules] oc]. cbn in Hrules, Hcl. subst krules.
  set (self := MainCategorizer.Make cats
                 (KeywordCategorizer.Make kcats (of_rules rules)) oc).
  pose proof (KeywordFacts.keyword_categorize_typed env kcats rules D w) as Hk.
  destruct (MainFacts.main_categorize_run env self D w _ _ Hk) as (w' & Hrun & _).
  eexists _, _. split; [exact Hrun|].
  set (kr := keyword_map rules D).
  set (w1 := logged _ _ _ _ w) in *.
  assert (∀ d, merged env self kr w1 !! d
               = if decide (d ∈ D) then Some (two_tier rules f d) else None) as Hm.
  { intros d. unfold merged, two_tier.
    assert (kr !! d = if decide (d ∈ D) then Some (assign rules d) else None) as Hkr
      by apply KeywordFacts.keyword_map_lookup.
    case_bool_decide as Hu.
    - rewrite Hkr. case_decide as Hd; [|done]. f_equal.
      rewrite bool_decide_eq_false_2; [done|]. intros Ha.
      assert (d ∈ MainCategorizer.uncategorized kr) as Hin
        by (apply MainFacts.elem_of_uncategorized; by rewrite Hkr, Ha).
      by rewrite Hu in Hin.
    - assert (returned env oc (MainCategorizer.uncategorized kr) w1 !! d
              = if decide (d ∈ MainCategorizer.uncategorized kr)
                then Some (f d) else None) as Hret.
      { unfold returned, recorded.
        assert (∀ d0, record_batches (OpenAICategorizer.client oc) (request_for oc w1)
                        (length (requests w1)) ∅
                        (batches (set_order env (MainCategorizer.uncategorized kr)))
                      !! d0
                      = if decide (d0 ∈ MainCategorizer.uncategorized kr)
                        then Some (f d0) else None) as Hrec.
        { intros d0. rewrite (TiersMore.record_batches_answering _ _ f) by done.
          rewrite ModelFacts.batches_concat, lookup_empty.
          destruct (decide (d0 ∈ MainCategorizer.uncategorized kr)) as [Hin|Hnin].
          - by rewrite decide_True by (by apply KeywordFacts.set_order_elem).
          - by rewrite decide_False by (by rewrite KeywordFacts.set_order_elem). }
        destruct (Eff.isEnabledFor env OpenAILogger INFO); [|apply Hrec].
        rewrite ModelFacts.fill_lookup, Hrec.
        destruct (decide (d ∈ MainCategorizer.uncategorized kr)) as [Hin|Hnin];
          [done|].
        by rewrite decide_False by (by rewrite KeywordFacts.set_order_elem). }
      change (MainCategorizer.openai_categorizer self) with oc.
      rewrite lookup_union, Hret, Hkr.
      destruct (decide (d ∈ MainCategorizer.uncategorized kr)) as [Hin|Hnin].
      + apply MainFacts.elem_of_uncategorized in Hin. rewrite Hkr in Hin.
        case_decide as Hd; [|done]. injection Hin as Hin.
        by rewrite bool_decide_eq_true_2.
      + rewrite (left_id_L None (∪)). case_decide as Hd; [|done]. f_equal.
        rewrite bool_decide_eq_false_2; [done|]. intros Ha. apply Hnin.
        apply MainFacts.elem_of_uncategorized. by rewrite Hkr, Ha. }
  split.
  - apply set_eq. intros d. rewrite elem_of_dom, Hm.
    case_decide; split; [done|eauto|by intros [? ?]|done].
  - intros d Hd. by rewrite Hm, decide_True.
Qed.

Lemma two_tiers_compose_witness :
  ∃ w' m,
    MainCategorizer.categorize
      (Examples.shop_env (answering (λ _, "Transport")) 20)
      (Examples.constructed (Examples.shop_env (answering (λ _, "Transport")) 20))
      Examples.descriptions
      (Examples.world_after (Examples.shop_env (answering (λ _, "Transport")) 20))
    = (w', Ok m)
    ∧ dom m = Examples.descriptions
    ∧ ∀ d, d ∈ Examples.descriptions →
           m !! d = Some (two_tier Examples.shop_rules (λ _, "Transport") d).
Proof.
  apply (two_tiers_compose
           (Examples.shop_env (answering (λ _, "Transport")) 20)
           (Examples.constructed (Examples.shop_env (answering (λ _, "Transport")) 20))
           Examples.descriptions
           (Examples.world_after (Examples.shop_env (answering (λ _, "Transport")) 20))
           Examples.shop_rules (λ _, "Transport")).
  - reflexivity.
  - intros n rq. reflexivity.
Defined.



(** ** Construction of the model tier *)

Module InitMore.
Import OpenAICategorizer EffFacts InitFacts.

Lemma append_run r w :
  ∃ w1,
    (if bool_decide ("Uncategorized" ∈ default [] (lists w !! r))
     then mret () else Eff.append r "Uncategorized") w = (w1, Ok ())
    ∧ lists w1 = lists_after r w ∧ requests w1 = requests w.
Proof.
  unfold lists_after.
  destruct (bool_decide ("Uncategorized" ∈ default [] (lists w !! r))).
  - by exists w.
  - unfold Eff.append. eexists. by split.
Qed.

Lemma init_run env r path w :
  ∃ w',
    __init__ env r path w
    = (w', configured_with env r (loaded_rules env path)
             (default [] (lists_after r w !! r)))
    ∧ lists w' = lists_after r w ∧ requests w' = requests w.
Proof.
  unfold __init__, _load_settings, configured_with.
  rewrite bind_run. unfold Eff.read_list at 1. rewrite bind_run.
  destruct (append_run r w) as (w1 & -> & Hl1 & Hr1).
  rewrite bind_run.
  destruct (load_run env OpenAILogger WARNING
              (AISettingsLoadFailed (Config.resolve env path)) path w1)
    as (w2 & -> & Hl2 & Hr2).
  exists w2. split; [|split; congruence].
  rewrite bind_run. unfold Eff.lift at 1.
  destruct (Py.get (loaded_rules env path) "openai" (JObj []) ≫= _) as [model|e];
    [|done]. cbn [mbind result_bind Py.bind].
  rewrite bind_run. unfold Eff.lift at 1.
  destruct (Py.get (loaded_rules env path) "openai" (JObj []) ≫= _) as [api_key|e];
    [|done]. cbn [mbind result_bind Py.bind].
  rewrite bind_run. unfold Eff.lift at 1.
  destruct (OpenAI env api_key) as [cl|e]; [|done]. cbn [mbind result_bind Py.bind].
  rewrite bind_run. unfold Eff.lift at 1.
  destruct (Py.get (loaded_rules env path) "category_hints" (JObj [])) as [hints|e];
    [|done]. cbn [mbind result_bind Py.bind].
  rewrite bind_run. unfold Eff.read_list at 1.
  rewrite bind_run. unfold Eff.lift at 1. rewrite Hl2, Hl1.
  destruct (_format_hints hints _) as [formatted|e]; [|done]. cbn [mbind result_bind Py.bind].
  by rewrite ret_run.
Qed.

Lemma configured_with_ok env r settings listed self :
  configured_with env r settings listed = Ok self →
  categories self = r ∧ schema_enum self = r
  ∧ sm_categories (system_message self) = listed.
Proof.
  unfold configured_with.
  destruct (Py.get settings "openai" (JObj [])) as [o|]; cbn; [|done].
  destruct (Py.get o "model" (JStr "gpt-4.1-nano")) as [model|]; cbn; [|done].
  destruct (Py.get o "api_key" JNull) as [api_key|]; cbn; [|done].
  destruct (OpenAI env api_key) as [cl|]; cbn; [|done].
  destruct (Py.get settings "category_hints" (JObj [])) as [hints|]; cbn; [|done].
  destruct (_format_hints hints listed) as [formatted|]; cbn; [|done].
  by intros [= <-].
Qed.

End InitMore.

(** X11. A settings file that cannot be loaded does not stop the
    construction of the model tier: it goes on with empty settings, asks
    for a client without an API key, and returns or raises as that request
    does; the tier it returns uses the model "gpt-4.1-nano" and no hints.
    The sentinel is appended to the category list in either case. *)
Theorem construction_without_settings env r ai_settings_file w :
  (∀ v, Config.load env (Config.resolve env ai_settings_file) ≠ Ok v) →
  ∃ w',
    OpenAICategorizer.__init__ env r ai_settings_file w
    = (w', match OpenAI env JNull with
           | Ok cl =>
               Ok (OpenAICategorizer.Make r (JObj []) (JStr "gpt-4.1-nano") cl
                     (JObj []) r
                     (SystemMessage (default [] (lists w' !! r)) []))
           | Raise e => Raise e
           end)
    ∧ "Uncategorized" ∈ default [] (lists w' !! r)
    ∧ requests w' = requests w.
Proof.
  intros Hfail.
  destruct (InitMore.init_run env r ai_settings_file w) as (w' & Hrun & Hl & Hr).
  exists w'. rewrite Hrun, Hl. split; [|split; [|done]].
  - f_equal. unfold loaded_rules.
    destruct (Config.load env (Config.resolve env ai_settings_file)) as [v|e];
      [by destruct (Hfail v)|].
    unfold configured_with. cbn.
    by destruct (OpenAI env JNull).
  - unfold lists_after. case_bool_decide as Hin; [done|].
    rewrite lookup_insert_eq. cbn. apply elem_of_app. right. by left.
Qed.

Lemma construction_without_settings_witness :
  ∃ w',
    "Uncategorized" ∈ default [] (lists w' !! 0)
    ∧ requests w' = requests Examples.start.
Proof.
  destruct (construction_without_settings
              (Examples.shop_env Examples.failing 20) 0 "missing.json" Examples.start)
    as (w' & _ & Hin & Hreq).
  - intros v Hv. vm_compute in Hv. discriminate Hv.
  - exists w'. split; [exact Hin|exact Hreq].
Defined.

(** X12. The schema of a request holds the category list object itself,
    the system message a text that was formatted once: every request of a
    constructed model tier carries as enum the list as it is in the world
    of the call, and as system message the one of the construction, whose
    categories are the list as it was then, the sentinel included. A
    category the caller appends later reaches the enum and not the system
    message. *)
Theorem requests_carry_current_list env r ai_settings_file w0 w1 self :
  OpenAICategorizer.__init__ env r ai_settings_file w0 = (w1, Ok self) →
  sm_categories (OpenAICategorizer.system_message self) = default [] (lists w1 !! r)
  ∧ "Uncategorized" ∈ sm_categories (OpenAICategorizer.system_message self)
  ∧ ∀ (X : gset string) w,
      ∃ w' m new,
        OpenAICategorizer.categorize env self X w = (w', Ok m)
        ∧ requests w' = requests w ++ new
        ∧ ∀ rq, rq ∈ new →
            rq_enum rq = default [] (lists w !! r)
            ∧ rq_system rq = OpenAICategorizer.system_message self
            ∧ rq_model rq = OpenAICategorizer.model self.
Proof.
  intros Hinit.
  destruct (InitMore.init_run env r ai_settings_file w0) as (w1' & Hrun & Hl & _).
  rewrite Hinit in Hrun. injection Hrun as <- Hself.
  symmetry in Hself.
  destruct (InitMore.configured_with_ok _ _ _ _ _ Hself) as (_ & Henum & Hsm).
  rewrite Hsm, Hl. split; [done|]. split.
  - unfold lists_after. case_bool_decide as Hin; [done|].
    rewrite lookup_insert_eq. cbn. apply elem_of_app. right. by left.
  - intros X w. destruct (decide (X = ∅)) as [->|HX].
    + exists w, ∅, []. rewrite ModelFacts.model_categorize_empty, app_nil_r.
      split; [done|]. split; [done|]. by intros rq ?%elem_of_nil.
    + destruct (ModelFacts.model_categorize_run env self X w HX)
        as (w' & Hrun & _ & Hreq).
      eexists _, _, _. split; [exact Hrun|]. split; [exact Hreq|].
      intros rq (b & -> & _)%list_elem_of_fmap. cbn. by rewrite Henum.
Qed.

Lemma requests_carry_current_list_witness :
  sm_categories
    (OpenAICategorizer.system_message
       (MainCategorizer.openai_categorizer
          (Examples.constructed (Examples.shop_env Examples.failing 20))))
  = ["Groceries"; "Transport"; "Uncategorized"].
Proof.
  destruct (requests_carry_current_list (Examples.shop_env Examples.failing 20) 0
              Examples.ai_settings_file Examples.start
              (Examples.world_after (Examples.shop_env Examples.failing 20))
              (MainCategorizer.openai_categorizer
                 (Examples.constructed (Examples.shop_env Examples.failing 20))))
    as (Hsm & _).
  - vm_compute. reflexivity.
  - rewrite Hsm. vm_compute. reflexivity.
Defined.

(** X13. When the hints are a JSON object, the hint lines of the system
    message are the categories of the list that have a hint, in the order
    of the list, each with its hint: a hint for a name that is not in the
    category list is left out, and so is every hint when the object is
    empty. *)
Theorem hint_lines_follow_categories members (categories : list string) :
  ∃ lines,
    OpenAICategorizer._format_hints (JObj members) categories = Ok lines
    ∧ lines = omap (λ c, pair c <$> Py.assoc c members) categories
    ∧ (∀ c h, (c, h) ∈ lines ↔ c ∈ categories ∧ Py.assoc c members = Some h)
    ∧ lines.*1 `sublist_of` categories.
Proof.
  exists (omap (λ c, pair c <$> Py.assoc c members) categories).
  split; [|split; [done|split]].
  - unfold OpenAICategorizer._format_hints.
    destruct members as [|m members]; [|apply TiersMore.hint_lines_object].
    cbn. induction categories as [|c categories IH]; [done|]. by cbn.
  - intros c h. rewrite list_elem_of_omap. split.
    + intros (c' & Hin & Heq). destruct (Py.assoc c' members) as [h'|] eqn:E; [|done].
      cbn in Heq. by injection Heq as -> ->.
    + intros [Hin Hh]. exists c. split; [done|]. by rewrite Hh.
  - induction categories as [|c categories IH]; [done|]. cbn.
    destruct (Py.assoc c members); cbn.
    + by apply sublist_skip.
    + by apply sublist_cons.
Qed.

(** ** The processor *)

Module ProcessorFacts.
Import Processor Text Re TransactionProcessor CleanSpec CleanFacts.

Lemma sub_from_length p b k s :
  String.length (sub_from p "" b k s) ≤ String.length s.
Proof.
  revert b k. induction s as [|a s IH]; intros b k.
  - cbn. destruct k; [|done]. by destruct (match_here p b "").
  - cbn [sub_from]. destruct k as [|k].
    + destruct (match_here p b (String a s)) as [[|n]|];
        try change ("" +:+ ?x) with x; cbn [String.length].
      * specialize (IH false 0). lia.
      * specialize (IH false n). lia.
      * specialize (IH false 0). lia.
    + specialize (IH false k). cbn. lia.
Qed.

Lemma remove_patterns_length ps s :
  String.length (foldl (λ d p, sub p "" d) s ps) ≤ String.length s.
Proof.
  revert s. induction ps as [|p ps IH]; intros s; [done|]. cbn.
  etrans; [apply IH|]. apply sub_from_length.
Qed.

Lemma collapse_from_length b s :
  String.length (collapse_from b s) ≤ String.length s.
Proof.
  remember (String.length s) as n eqn:Hn.
  revert b s Hn. induction (lt_wf n) as [n _ IH]. intros b s ->.
  destruct s as [|a s]; [done|]. rewrite collapse_from_cons.
  destruct (isspace a); cbn.
  - pose proof (lstrip_length s).
    specialize (IH (String.length (lstrip s)) ltac:(cbn; lia) false (lstrip s) eq_refl).
    lia.
  - specialize (IH (String.length s) ltac:(cbn; lia) false s eq_refl). lia.
Qed.

Lemma rstrip_length s : String.length (rstrip s) ≤ String.length s.
Proof.
  induction s as [|a s IH]; [done|]. cbn [rstrip].
  destruct (rstrip s); [destruct (isspace a)|]; cbn in *; lia.
Qed.

Lemma journal_emit_run lvl l r s :
  ∃ s', emit lvl l r s = (s', Ok ()) ∧ pipeline s' = pipeline s.
Proof. unfold emit. destruct (bool_decide _); by eexists. Qed.

Lemma lookup_all_total (m : gmap string string) (descs : list string) :
  (∀ d, d ∈ descs → is_Some (m !! d)) →
  ∃ cs, lookup_all m descs = Ok cs ∧ Forall2 (λ d c, m !! d = Some c) descs cs.
Proof.
  induction descs as [|d descs IH]; intros Hall.
  - exists []. by split.
  - destruct (Hall d) as [c Hc]; [by left|].
    destruct IH as (cs & Hcs & Hf); [intros d' Hd'; apply Hall; by right|].
    exists (c :: cs). cbn. rewrite Hc, Hcs. split; [done|]. by constructor.
Qed.

Lemma zip_rows (df : list row) (cs : list string) :
  length df = length cs →
  row_of <$> zip_with Categorized df cs = df
  ∧ category <$> zip_with Categorized df cs = cs.
Proof.
  revert cs. induction df as [|r df IH]; intros [|c cs] Hlen; try done.
  cbn in Hlen. destruct (IH cs) as [H1 H2]; [lia|]. cbn. by rewrite H1, H2.
Qed.

Lemma main_categorize_covers env self (D : gset string) w w' m d :
  MainCategorizer.categorize env self D w = (w', Ok m) → d ∈ D → is_Some (m !! d).
Proof.
  intros Hrun Hd.
  destruct (TiersMore.main_categorize_keyword env self D w w' m Hrun)
    as (w1 & kr & Hk & ->).
  destruct (KeywordFacts.keyword_categorize_inv _ _ _ _ _ _ Hk) as (Hdom & _).
  assert (is_Some (kr !! d)) as Hkr by (apply elem_of_dom; by rewrite Hdom).
  unfold merged. case_bool_decide; [done|].
  apply lookup_union_is_Some. by right.
Qed.

(** What [categorize_transactions] does, given what the categorizer does. *)
Lemma categorize_transactions_run env lvl self df s :
  match MainCategorizer.categorize env (categorizer self)
          (list_to_set (description <$> df)) (pipeline s) with
  | (w', Raise e) =>
      categorize_transactions env lvl self df s = (State w' (journal s), Raise e)
  | (w', Ok m) =>
      ∃ s' cs,
        categorize_transactions env lvl self df s
        = (s', Ok (zip_with Categorized df cs))
        ∧ pipeline s' = w'
        ∧ Forall2 (λ d c, m !! d = Some c) (description <$> df) cs
  end.
Proof.
  destruct (MainCategorizer.categorize env (categorizer self)
              (list_to_set (description <$> df)) (pipeline s)) as [w' [m|e]] eqn:Hrun;
    unfold categorize_transactions, lift; unfold bind at 1; rewrite Hrun;
    cbn [fst snd]; [|done].
  destruct (lookup_all_total m (description <$> df)) as (cs & Hcs & Hf).
  { intros d Hd. eapply main_categorize_covers; [exact Hrun|].
    by apply elem_of_list_to_set. }
  unfold bind at 1. rewrite Hcs. unfold bind.
  destruct (journal_emit_run lvl INFO (CategorizedTransactions (length (description <$> df)))
              (State w' (journal s))) as (s' & -> & Hp).
  exists s', cs. by split.
Qed.

Lemma process_transactions_run env lvl self df s :
  ∃ s0, pipeline s0 = pipeline s
        ∧ process_transactions env lvl self df s
          = categorize_transactions env lvl self
              (TransactionProcessor.clean_descriptions df) s0.
Proof.
  unfold process_transactions, Processor.clean_descriptions.
  unfold bind at 1 2.
  destruct (journal_emit_run lvl INFO (CleanedDescriptions (length df)) s)
    as (s0 & -> & Hp0).
  by exists s0.
Qed.

End ProcessorFacts.

(** X14. Cleaning never lengthens a description: every rule removes text or
    replaces a run of whitespace by one space. *)
Theorem clean_never_lengthens x :
  String.length (TransactionProcessor.clean x) ≤ String.length x.
Proof.
  unfold TransactionProcessor.clean, Text.strip.
  etrans; [apply ProcessorFacts.rstrip_length|].
  etrans; [apply CleanFacts.lstrip_length|].
  etrans; [apply (ProcessorFacts.collapse_from_length true)|].
  apply ProcessorFacts.remove_patterns_length.
Qed.

(** X15. [categorize_transactions] raises only what the categorizer raises,
    and never [KeyError]: when the categorizer returns a mapping, every
    description of the frame is a key of it, and the frame comes back with
    its rows unchanged and in order, each with the category the mapping
    holds for its description. *)
Theorem categorize_transactions_rows env lvl self df s :
  match MainCategorizer.categorize env (Processor.categorizer self)
          (list_to_set (TransactionProcessor.description <$> df))
          (Processor.pipeline s) with
  | (w', Raise e) =>
      (Processor.categorize_transactions env lvl self df s).2 = Raise e
  | (w', Ok m) =>
      ∃ s' out,
        Processor.categorize_transactions env lvl self df s = (s', Ok out)
        ∧ Processor.pipeline s' = w'
        ∧ Processor.row_of <$> out = df
        ∧ ∀ c, c ∈ out →
            m !! TransactionProcessor.description (Processor.row_of c)
            = Some (Processor.category c)
  end.
Proof.
  pose proof (ProcessorFacts.categorize_transactions_run env lvl self df s) as H.
  destruct (MainCategorizer.categorize env (Processor.categorizer self)
              (list_to_set (TransactionProcessor.description <$> df))
              (Processor.pipeline s)) as [w' [m|e]]; [|by rewrite H].
  destruct H as (s' & cs & Hrun & Hp & Hf).
  exists s', (zip_with Processor.Categorized df cs).
  split; [done|]. split; [done|].
  assert (length df = length cs) as Hlen
    by (apply Forall2_length in Hf; by rewrite length_fmap in Hf).
  destruct (ProcessorFacts.zip_rows df cs Hlen) as [Hrows Hcats].
  split; [done|].
  intros c (i & Hi)%list_elem_of_lookup.
  apply lookup_zip_with_Some in Hi as (r & c0 & -> & Hr & Hc). cbn.
  eapply Forall2_lookup_lr in Hf; [exact Hf| |exact Hc].
  by rewrite list_lookup_fmap, Hr.
Qed.

(** X16. [process_transactions] categorizes the cleaned descriptions: it
    raises only what the categorizer raises on the set of the cleaned
    descriptions; otherwise it returns the frame row by row, the
    description of each row cleaned, its other columns untouched, its
    category the one the mapping holds for the cleaned description, so that
    rows whose descriptions are cleaned to the same text get the same
    category. *)
Theorem process_transactions_rows env lvl self df s :
  match MainCategorizer.categorize env (Processor.categorizer self)
          (list_to_set (TransactionProcessor.clean
                          <$> (TransactionProcessor.description <$> df)))
          (Processor.pipeline s) with
  | (w', Raise e) =>
      (Processor.process_transactions env lvl self df s).2 = Raise e
  | (w', Ok m) =>
      ∃ s' out,
        Processor.process_transactions env lvl self df s = (s', Ok out)
        ∧ Processor.pipeline s' = w'
        ∧ Processor.row_of <$> out = TransactionProcessor.clean_descriptions df
        ∧ (∀ i r, df !! i = Some r →
             ∃ c, out !! i = Some c
                  ∧ TransactionProcessor.description (Processor.row_of c)
                    = TransactionProcessor.clean (TransactionProcessor.description r)
                  ∧ TransactionProcessor.other_columns (Processor.row_of c)
                    = TransactionProcessor.other_columns r
                  ∧ m !! TransactionProcessor.clean (TransactionProcessor.description r)
                    = Some (Processor.category c))
        ∧ ∀ c c', c ∈ out → c' ∈ out →
            TransactionProcessor.description (Processor.row_of c)
            = TransactionProcessor.description (Processor.row_of c') →
            Processor.category c = Processor.category c'
  end.
Proof.
  assert (TransactionProcessor.description
            <$> TransactionProcessor.clean_descriptions df
          = TransactionProcessor.clean <$> (TransactionProcessor.description <$> df))
    as Hdescs.
  { unfold TransactionProcessor.clean_descriptions.
    rewrite <- !list_fmap_compose. by apply list_fmap_ext. }
  destruct (ProcessorFacts.process_transactions_run env lvl self df s)
    as (s0 & Hp0 & ->).
  pose proof (ProcessorFacts.categorize_transactions_run env lvl self
                (TransactionProcessor.clean_descriptions df) s0) as H.
  rewrite Hdescs, Hp0 in H.
  destruct (MainCategorizer.categorize env (Processor.categorizer self)
              (list_to_set (TransactionProcessor.clean
                              <$> (TransactionProcessor.description <$> df)))
              (Processor.pipeline s)) as [w' [m|e]]; [|by rewrite H].
  destruct H as (s' & cs & Hrun & Hp & Hf).
  assert (length (TransactionProcessor.clean_descriptions df) = length cs) as Hlen.
  { apply Forall2_length in Hf. rewrite <- Hf, !length_fmap.
    unfold TransactionProcessor.clean_descriptions. by rewrite length_fmap. }
  destruct (ProcessorFacts.zip_rows _ cs Hlen) as [Hrows Hcats].
  set (out := zip_with Processor.Categorized
                (TransactionProcessor.clean_descriptions df) cs) in *.
  assert (∀ c, c ∈ out →
            m !! TransactionProcessor.description (Processor.row_of c)
            = Some (Processor.category c)) as Hcat.
  { intros c (i & Hi)%list_elem_of_lookup.
    apply lookup_zip_with_Some in Hi as (r & c0 & -> & Hr & Hc). cbn.
    eapply Forall2_lookup_lr in Hf; [exact Hf| |exact Hc].
    by rewrite <- Hdescs, list_lookup_fmap, Hr. }
  exists s', out. split; [done|]. split; [done|]. split; [done|]. split.
  - intros i r Hr.
    assert ((Processor.row_of <$> out) !! i
            = Some (TransactionProcessor.Row
                      (TransactionProcessor.clean (TransactionProcessor.description r))
                      (TransactionProcessor.other_columns r))) as Hi.
    { rewrite Hrows. unfold TransactionProcessor.clean_descriptions.
      by rewrite list_lookup_fmap, Hr. }
    rewrite list_lookup_fmap in Hi.
    destruct (out !! i) as [c|] eqn:Hc; [|done].
    cbn in Hi. injection Hi as Hi. exists c. split; [done|].
    assert (c ∈ out) as Hin by (by eapply list_elem_of_lookup_2).
    specialize (Hcat c Hin). rewrite Hi in *. cbn in *. done.
  - intros c c' Hc Hc' Heq.
    pose proof (Hcat c Hc) as H1. pose proof (Hcat c' Hc') as H2.
    rewrite Heq in H1. congruence.
Qed.

(** X17. [_load_categories] never raises and leaves the world of the
    categorizers alone. A file that holds an object gives the value of its
    [categories] member as it is, or the empty list when it has none, and
    nothing is logged; every other case (no file, no JSON, a JSON value
    that is no object, such as a bare list of categories) gives the empty
    list and one error record. *)
Theorem load_categories_returns env lvl categories_file s :
  ∃ s' v,
    Processor._load_categories env lvl categories_file s = (s', Ok v)
    ∧ Processor.pipeline s' = Processor.pipeline s
    ∧ match files env !! categories_file with
      | Some (Content (JObj members)) =>
          s' = s ∧ v = default (JArr []) (Py.assoc "categories" members)
      | _ =>
          v = JArr []
          ∧ Processor.journal s'
            = Processor.journal s
              ++ (if bool_decide (lvl ≤ levelno ERROR)
                  then [(ERROR, Processor.CategoriesLoadFailed)] else [])
      end.
Proof.
  unfold Processor._load_categories, Config.load.
  destruct (files env !! categories_file) as [[| |v]|]; cbn [Py.bind];
    try (unfold Processor.bind, Processor.emit, Processor.ret;
         case_bool_decide; eexists _, _; repeat split; cbn;
         by rewrite ?app_nil_r).
  destruct v; cbn [Py.get];
    try (unfold Processor.bind, Processor.emit, Processor.ret;
         case_bool_decide; eexists _, _; repeat split; cbn;
         by rewrite ?app_nil_r).
  by eexists _, _.
Qed.
